(** * csv-parser: a shallow embedding of [parseCSV] and [toCsv]

    The development follows the TypeScript sources: the cell reference
    calculator ([numberToCharacters], [csvCellMetadataFactory]), the
    parser ([parseCSV]: line splitting, the character scanner, the shape
    check, header resolution and record projection) and the serializer
    ([toCsv]: stringification, quoting, joining).

    Modelling conventions.
    - A JavaScript string is a [string]; one code unit is one [ascii].
    - A JavaScript integer-valued number is a [Z] (column and row counters
      are a [nat] where the source only counts upwards from 0).
    - A JavaScript array is a [list]; an array of strings that may have
      holes (reads of which give [undefined]) is a [list (option string)].
    - A promise is its settled [outcome]: [Resolved v] or [Rejected e];
      an exception thrown inside the executor rejects the promise.
    - The callbacks object is read with [key in callbacks] and
      [callbacks[key](cell, metadata)] only; it is the finite map of the
      properties [in] finds in it, the inherited ones included, each with
      what calling it does.  The default [{}] is [emptyObject], which
      inherits the properties of [Object.prototype]. *)

From Stdlib Require Import ZArith String Ascii List Lia Bool.
From stdpp Require Import base option list strings gmap pretty.

Open Scope string_scope.
Open Scope list_scope.

(** ** Outcomes of a promise *)

Inductive error :=
| SyntaxError (msg : string)
| TypeError
| RangeError
| Thrown (payload : string).

Inductive outcome (A : Type) :=
| Resolved (a : A)
| Rejected (e : error).
Arguments Resolved {A} a.
Arguments Rejected {A} e.

Definition obind {A B} (m : outcome A) (k : A -> outcome B) : outcome B :=
  match m with
  | Resolved a => k a
  | Rejected e => Rejected e
  end.

(** ** Cell reference calculator *)

Module CellRef.

(** [const characters = 'ABCDEFGHIJKLMNOPQRSTUVWXYZ'] *)
Definition characters : string := "ABCDEFGHIJKLMNOPQRSTUVWXYZ".

(** [characters[k]]: a one-character string, or [undefined] ([None]) when
    [k] is not an index of the string (in particular when it is -1). *)
Definition charAt (s : string) (k : Z) : option string :=
  if (k <? 0)%Z then None
  else match String.get (Z.to_nat k) s with
       | Some c => Some (String c "")
       | None => None
       end.

(** The [while (num > 0)] loop: [out.unshift(num % 26)], then
    [num = Math.floor(num / 26)].  [None] means the fuel ran out. *)
Fixpoint digitsLoop (fuel : nat) (num : Z) (out : list Z) : option (list Z) :=
  match fuel with
  | O => None
  | S fuel' =>
      if (0 <? num)%Z
      then digitsLoop fuel' (num / 26)%Z (Z.rem num 26 :: out)
      else Some out
  end.

(** The callback of [out.map]: [(it, idx, {length}) =>
    characters[length > 1 && idx < length - 1 ? it - 1 : it]]. *)
Definition letterAt (len : nat) (idx : nat) (it : Z) : option string :=
  charAt characters
    (if (1 <? len)%nat && (idx <? len - 1)%nat then it - 1 else it)%Z.

(** [Array.prototype.join('')]: an [undefined] element contributes the
    empty string. *)
Definition joinEmpty (l : list (option string)) : string :=
  fold_right (fun o acc => default "" o +:+ acc) "" l.

Definition lettersOf (out : list Z) : string :=
  joinEmpty (imap (letterAt (length out)) out).

Definition numberToCharactersFuel (fuel : nat) (num : Z) : option string :=
  if (num =? 1)%Z then Some "A"
  else lettersOf <$> digitsLoop fuel (num - 1)%Z [].

(** Enough fuel for every input: the loop divides by 26 each round. *)
Definition numberToCharacters (num : Z) : option string :=
  numberToCharactersFuel (S (Z.to_nat num)) num.

(** [csvCellMetadataFactory] (and the getters of [CsvCellMetadataClass]). *)
Record CsvCellMetadata := {
  columnIndex : nat;
  columnName : string;
  rowIndex : nat;
  cellReferenceA1 : string;
  cellReferenceRC : string
}.

Definition csvCellMetadataFactory (columnIndex : nat)
    (columnName : string) (rowIndex : nat) : CsvCellMetadata :=
  {| columnIndex := columnIndex;
     columnName := columnName;
     rowIndex := rowIndex;
     cellReferenceA1 :=
       default "" (numberToCharacters (Z.of_nat columnIndex)) +:+ pretty rowIndex;
     cellReferenceRC := "R" +:+ pretty rowIndex +:+ "C" +:+ pretty columnIndex |}.

End CellRef.


(** ** JavaScript values and objects *)

Module Js.

(** The values a record can hold.  [JDate] carries the result of
    [toISOString()] ([None] for an invalid date, on which it throws a
    [RangeError]); [JElement] carries [outerHTML] and [innerHTML];
    [JOther] stands for every other value and carries the result of its
    [toString()]. *)
Inductive jsval :=
| JUndefined
| JNull
| JString (s : string)
| JFunction (name : string)
| JDate (iso : option string)
| JElement (outerHTML : string) (innerHTML : option string)
| JOther (str : string).

(** An object: its own enumerable string-keyed properties, in creation
    order, each key once. *)
Definition jsobj := list (string * jsval).

(** The property names of [Object.prototype].  An object written as an
    object literal inherits these properties, and [key in object] is true
    of each of them. *)
Definition objectPrototypeNames : list string :=
  [ "constructor"; "__defineGetter__"; "__defineSetter__"; "hasOwnProperty";
    "__lookupGetter__"; "__lookupSetter__"; "isPrototypeOf";
    "propertyIsEnumerable"; "toString"; "valueOf"; "__proto__";
    "toLocaleString" ].

(** [Object(value)]: a new empty object for [undefined] and [null], the
    wrapper object of a primitive string (an object whose [toString()] is
    the string), and the value itself otherwise. *)
Definition toObject (v : jsval) : jsval :=
  match v with
  | JUndefined | JNull => JOther "[object Object]"
  | JString s => JOther s
  | _ => v
  end.

(** [ToPropertyKey(value)] is the key [__proto__]. *)
Definition isProtoKey (v : jsval) : bool :=
  match v with
  | JString s | JOther s => String.eqb s "__proto__"
  | _ => false
  end.

(** [CreateDataProperty]: an existing key keeps its place and gets the
    new value, a new key goes last. *)
Fixpoint objSet (k : string) (v : jsval) (o : jsobj) : jsobj :=
  match o with
  | [] => [(k, v)]
  | (k', v') :: o' =>
      if String.eqb k' k then (k, v) :: o' else (k', v') :: objSet k v o'
  end.

(** [o[k]]: the value of the property, [undefined] when there is none. *)
Fixpoint objGet (k : string) (o : jsobj) : jsval :=
  match o with
  | [] => JUndefined
  | (k', v) :: o' => if String.eqb k' k then v else objGet k o'
  end.

(** One round of [Object.fromEntries]; a hole of the array is read as
    [undefined], which is not an entry object. *)
Definition addEntry (acc : outcome jsobj) (e : option (string * jsval))
  : outcome jsobj :=
  obind acc (fun o =>
    match e with
    | Some (k, v) => Resolved (objSet k v o)
    | None => Rejected TypeError
    end).

(** [Object.fromEntries] of an array of [[key, value]] pairs. *)
Definition fromEntries (entries : list (option (string * jsval))) : outcome jsobj :=
  fold_left addEntry entries (Resolved []).

(** Array-index keys: the canonical decimal strings of 0 .. 2^32 - 2. *)
Fixpoint digitsValue (s : string) (acc : N) : option N :=
  match s with
  | "" => Some acc
  | String c r =>
      match Ascii.is_nat c with
      | Some d => digitsValue r (10 * acc + N.of_nat d)%N
      | None => None
      end
  end.

Definition arrayIndex (k : string) : option N :=
  match digitsValue k 0 with
  | Some n =>
      if String.eqb (pretty n) k && (n <? 2 ^ 32 - 1)%N then Some n else None
  | None => None
  end.

Fixpoint insertKey (n : N) (k : string) (l : list (N * string)) : list (N * string) :=
  match l with
  | [] => [(n, k)]
  | (m, k') :: l' =>
      if (n <=? m)%N then (n, k) :: l else (m, k') :: insertKey n k l'
  end.

(** The array-index keys of a key list, sorted by their number. *)
Definition indexKeys (ks : list string) : list (N * string) :=
  fold_right
    (fun k acc =>
       match arrayIndex k with
       | Some n => insertKey n k acc
       | None => acc
       end) [] ks.

(** [OrdinaryOwnPropertyKeys]: array-index keys in ascending numeric
    order, then the other keys in creation order. *)
Definition orderKeys (ks : list string) : list string :=
  (snd <$> indexKeys ks) ++ filter (fun k => arrayIndex k = None) ks.

Definition ownKeys (o : jsobj) : list string := orderKeys (fst <$> o).

(** [Object.keys] and [Object.values]. *)
Definition keys (o : jsobj) : list string := ownKeys o.
Definition values (o : jsobj) : list jsval := (fun k => objGet k o) <$> ownKeys o.

(** [s.includes(sub)]: [sub] starts at some position of [s]. *)
Fixpoint includes (s sub : string) : bool :=
  String.prefix sub s ||
  match s with
  | "" => false
  | String _ r => includes r sub
  end.

(** [s.indexOf(sub)] *)
Definition indexOf (s sub : string) : Z :=
  match String.index 0 sub s with Some n => Z.of_nat n | None => (-1)%Z end.

(** [s.slice(0, e)] *)
Definition slice0 (s : string) (e : Z) : string :=
  let len := Z.of_nat (String.length s) in
  let e' := if (e <? 0)%Z then Z.max (len + e) 0 else Z.min e len in
  String.substring 0 (Z.to_nat e') s.

(** [l.join(sep)] for an array of strings. *)
Definition join (sep : string) (l : list string) : string := String.concat sep l.

End Js.

(** ** The parser *)

Module Parser.
Import Js.

Definition LF : ascii := "010"%char.
Definition CR : ascii := "013"%char.
Definition dquote : ascii := "034"%char.
Definition squote : ascii := "039"%char.

(** The two values of [stringDelimiter]: the double quote (the default)
    and the single quote. *)
Inductive StringDelimiter := DoubleQuote | SingleQuote.

Definition delimiterChar (d : StringDelimiter) : ascii :=
  match d with DoubleQuote => dquote | SingleQuote => squote end.

(** [header?: true | string[]] *)
Inductive HeaderOption :=
| HeaderFirstRow
| HeaderList (names : list string).

Record CsvParserOptions := {
  separator : string;
  header : HeaderOption;
  stringDelimiter : StringDelimiter
}.

(** The defaults: separator comma, [header = true], double quote. *)
Definition defaultOptions : CsvParserOptions :=
  {| separator := ","; header := HeaderFirstRow; stringDelimiter := DoubleQuote |}.

(** A row of cells, and the grid [cells: string[][]]. *)
Abbreviation row := (list (option string)).
Abbreviation grid := (list (list (option string))).

(** [csv.split(/\r?\n/g)]: [cur] is the line read so far. *)
Fixpoint splitFrom (cur : string) (s : string) : list string :=
  match s with
  | "" => [cur]
  | String c rest =>
      if Ascii.eqb c LF then cur :: splitFrom "" rest
      else if Ascii.eqb c CR then
        match rest with
        | String c2 rest2 =>
            if Ascii.eqb c2 LF then cur :: splitFrom "" rest2
            else splitFrom (cur +:+ String c "") rest
        | "" => splitFrom (cur +:+ String c "") rest
        end
      else splitFrom (cur +:+ String c "") rest
  end.

Definition splitLines (csv : string) : list string := splitFrom "" csv.

(** [a[k]] on an array with holes. *)
Definition arrGet (a : row) (k : nat) : option string := mjoin (a !! k).

(** [a[k] = v]: in range the slot is overwritten; beyond the end the
    array grows, leaving holes between the old end and [k]. *)
Definition arrSet (a : row) (k : nat) (v : string) : row :=
  if (k <? length a)%nat then <[k := Some v]> a
  else a ++ replicate (k - length a) None ++ [Some v].

(** The left operand of [+=]: [undefined] is converted to a string. *)
Definition strOf (o : option string) : string := default "undefined" o.

(** [result[currentCell] += char], where [result] is [cells[i]]; it
    throws when [cells[i]] is [undefined]. *)
Definition appendChar (cells : grid) (i currentCell : nat) (char : ascii)
  : outcome grid :=
  match cells !! i with
  | None => Rejected TypeError
  | Some result =>
      Resolved (<[i := arrSet result currentCell
                         (strOf (arrGet result currentCell) +:+ String char "")]> cells)
  end.

(** [incrementCell]: [result[++currentCell] = ''] *)
Definition incrementCell (cells : grid) (i currentCell : nat)
  : outcome (grid * nat) :=
  match cells !! i with
  | None => Rejected TypeError
  | Some result =>
      Resolved (<[i := arrSet result (S currentCell) ""]> cells, S currentCell)
  end.

(** The inner [for] loop over the characters of one line; [line] is what
    is left to read from position [c] on. *)
Fixpoint scanLine (sep : string) (d : ascii) (line : string) (i : nat)
    (cells : grid) (currentCell : nat) (inString : bool) : outcome grid :=
  match line with
  | "" => Resolved cells
  | String char rest =>
      if String.eqb (String char "") sep then
        if inString then
          obind (appendChar cells i currentCell char)
            (fun cells' => scanLine sep d rest i cells' currentCell inString)
        else
          obind (incrementCell cells i currentCell)
            (fun st => scanLine sep d rest i st.1 st.2 inString)
      else if Ascii.eqb char d then
        match rest with
        | String next rest' =>
            if inString && Ascii.eqb next d then
              obind (appendChar cells i currentCell char)
                (fun cells' => scanLine sep d rest' i cells' currentCell inString)
            else scanLine sep d rest i cells currentCell (negb inString)
        | "" => scanLine sep d rest i cells currentCell (negb inString)
        end
      else
        obind (appendChar cells i currentCell char)
          (fun cells' => scanLine sep d rest i cells' currentCell inString)
  end.

(** The outer [for] loop over the lines; [i] is the index of the line. *)
Fixpoint tokenizeLines (sep : string) (d : ascii) (lines : list string)
    (i : nat) (cells : grid) : outcome grid :=
  match lines with
  | [] => Resolved cells
  | line :: rest =>
      if String.eqb line "" then tokenizeLines sep d rest (S i) cells
      else
        obind (scanLine sep d line i (cells ++ [[Some ""]]) 0 false)
          (fun cells' => tokenizeLines sep d rest (S i) cells')
  end.

Definition tokenize (sep : string) (d : StringDelimiter) (csv : string)
  : outcome grid :=
  tokenizeLines sep (delimiterChar d) (splitLines csv) 0 [].

(** [cells.some(line => line.length !== cells[0].length)]; the predicate
    (and with it [cells[0]]) is only evaluated when [cells] has a row. *)
Definition malformed (cells : grid) : bool :=
  existsb (fun line => negb (length line =? length (default [] (cells !! 0)))%nat) cells.

(** [header === true ? cells[0] : header]; [None] is [undefined]. *)
Definition resolveHeaders (h : HeaderOption) (cells : grid) : option row :=
  match h with
  | HeaderFirstRow => cells !! 0
  | HeaderList names => Some (Some <$> names)
  end.

(** [if (header === true) cells.shift()] *)
Definition dataRows (h : HeaderOption) (cells : grid) : grid :=
  match h with
  | HeaderFirstRow => tail cells
  | HeaderList _ => cells
  end.

(** The value of [line[colIdx]]. *)
Definition cellValue (line : row) (colIdx : nat) : jsval :=
  match arrGet line colIdx with
  | Some s => JString s
  | None => JUndefined
  end.

Section Projection.
(** Callbacks are the caller's code: they may change the caller's state
    [W] and may throw. *)
Context {W : Type}.

Definition callback : Type :=
  jsval -> CellRef.CsvCellMetadata -> W -> outcome jsval * W.

(** A built-in method called as [callbacks[key](cell, metadata)]: it
    leaves the caller's state alone. *)
Definition builtin (result : jsval -> outcome jsval) : callback :=
  fun cell _ w => (result cell, w).

(** The properties of [Object.prototype], each with what
    [callbacks[key](cell, metadata)] does when [callbacks] is an object
    without properties of its own:
    - [constructor] is [Object]: it returns [Object(cell)];
    - [__defineGetter__] and [__defineSetter__] throw a [TypeError], the
      metadata object passed as the getter or setter not being callable;
    - [hasOwnProperty], [isPrototypeOf] and [propertyIsEnumerable] return
      [false];
    - [__lookupGetter__] and [__lookupSetter__] return the accessor
      function of [__proto__] when the cell spells [__proto__], and
      [undefined] otherwise;
    - [toString] and [toLocaleString] return the string
      [[object Object]];
    - [valueOf] returns the object itself;
    - [__proto__] is [Object.prototype], an object: calling it throws a
      [TypeError]. *)
Definition objectPrototype : list (string * callback) :=
  [ ("constructor", builtin (fun cell => Resolved (toObject cell)));
    ("__defineGetter__", builtin (fun _ => Rejected TypeError));
    ("__defineSetter__", builtin (fun _ => Rejected TypeError));
    ("hasOwnProperty", builtin (fun _ => Resolved (JOther "false")));
    ("__lookupGetter__",
       builtin (fun cell =>
         Resolved (if isProtoKey cell then JFunction "get __proto__"
                   else JUndefined)));
    ("__lookupSetter__",
       builtin (fun cell =>
         Resolved (if isProtoKey cell then JFunction "set __proto__"
                   else JUndefined)));
    ("isPrototypeOf", builtin (fun _ => Resolved (JOther "false")));
    ("propertyIsEnumerable", builtin (fun _ => Resolved (JOther "false")));
    ("toString", builtin (fun _ => Resolved (JString "[object Object]")));
    ("valueOf", builtin (fun _ => Resolved (JOther "[object Object]")));
    ("__proto__", builtin (fun _ => Rejected TypeError));
    ("toLocaleString", builtin (fun _ => Resolved (JString "[object Object]"))) ].

(** The object [{}], the default of the parameter [callbacks]: [in]
    finds in it the properties it inherits from [Object.prototype]. *)
Definition emptyObject : gmap string callback := list_to_map objectPrototype.

(** [callbacks: Record<number | string, ...>], as the projection reads
    it: the map holds every property that [key in callbacks] finds, own
    or inherited, with what [callbacks[key](cell, metadata)] does; an own
    property comes before an inherited one of the same name.  Property
    keys are strings; a numeric key is its decimal string.  The empty map
    is an object in which [in] finds nothing, one without prototype. *)
Variable callbacks : gmap string callback.

(** The entry computed for one column by the callback of
    [headers.map]: [colName in callbacks ? callbacks[colName](...) :
    colIdx in callbacks ? callbacks[colIdx](...) : line[colIdx]]. *)
Definition projectCell (line : row) (rowIdx : nat) (colName : string)
    (colIdx : nat) (w : W) : outcome jsval * W :=
  match callbacks !! colName with
  | Some f =>
      f (cellValue line colIdx)
        (CellRef.csvCellMetadataFactory (colIdx + 1) colName (rowIdx + 1)) w
  | None =>
      match callbacks !! (pretty colIdx : string) with
      | Some f =>
          f (cellValue line colIdx)
            (CellRef.csvCellMetadataFactory (colIdx + 1) colName (rowIdx + 1)) w
      | None => (Resolved (cellValue line colIdx), w)
      end
  end.

(** [headers.map((colName, colIdx) => [colName, ...])], left to right;
    a hole of [headers] is skipped and stays a hole. *)
Fixpoint projectCells (headers : row) (colIdx : nat) (line : row)
    (rowIdx : nat) (w : W) : outcome (list (option (string * jsval))) * W :=
  match headers with
  | [] => (Resolved [], w)
  | None :: hs =>
      match projectCells hs (S colIdx) line rowIdx w with
      | (Resolved es, w') => (Resolved (None :: es), w')
      | (Rejected e, w') => (Rejected e, w')
      end
  | Some colName :: hs =>
      match projectCell line rowIdx colName colIdx w with
      | (Resolved v, w') =>
          match projectCells hs (S colIdx) line rowIdx w' with
          | (Resolved es, w'') => (Resolved (Some (colName, v) :: es), w'')
          | (Rejected e, w'') => (Rejected e, w'')
          end
      | (Rejected e, w') => (Rejected e, w')
      end
  end.

(** [Object.fromEntries(headers.map(...))] for one line; [headers] is
    [undefined] when [header === true] and there is no row. *)
Definition projectRow (headers : option row) (line : row) (rowIdx : nat)
    (w : W) : outcome jsobj * W :=
  match headers with
  | None => (Rejected TypeError, w)
  | Some hs =>
      match projectCells hs 0 line rowIdx w with
      | (Resolved es, w') => (fromEntries es, w')
      | (Rejected e, w') => (Rejected e, w')
      end
  end.

(** [cells.map((line, rowIdx) => ...)] *)
Fixpoint projectRows (headers : option row) (rows : grid) (rowIdx : nat)
    (w : W) : outcome (list jsobj) * W :=
  match rows with
  | [] => (Resolved [], w)
  | line :: rest =>
      match projectRow headers line rowIdx w with
      | (Resolved o, w') =>
          match projectRows headers rest (S rowIdx) w' with
          | (Resolved os, w'') => (Resolved (o :: os), w'')
          | (Rejected e, w'') => (Rejected e, w'')
          end
      | (Rejected e, w') => (Rejected e, w')
      end
  end.

(** [parseCSV(csv, options, callbacks)] *)
Definition parseCSV (csv : string) (options : CsvParserOptions) (w : W)
  : outcome (list jsobj) * W :=
  match tokenize (separator options) (stringDelimiter options) csv with
  | Rejected e => (Rejected e, w)
  | Resolved cells =>
      if malformed cells then (Rejected (SyntaxError "Malformed CSV"), w)
      else
        projectRows (resolveHeaders (header options) cells)
                    (dataRows (header options) cells) 0 w
  end.

End Projection.

End Parser.

(** ** The serializer *)

Module Serializer.
Import Js Parser.

(** The first argument of [toCsv]: the array, or [null] / [undefined]. *)
Inductive DataArg :=
| DataNull
| DataUndefined
| DataArray (records : list jsobj).

(** [Omit<CsvParserOptions, 'header'>] *)
Record ToCsvOptions := {
  toSeparator : string;
  toStringDelimiter : StringDelimiter
}.

Definition defaultToCsvOptions : ToCsvOptions :=
  {| toSeparator := ","; toStringDelimiter := DoubleQuote |}.

(** The chain of [if]s of the inner loop: what is pushed for one value. *)
Definition stringifyCell (cell : jsval) : outcome string :=
  match cell with
  | JUndefined | JNull => Resolved ""
  | JFunction name => Resolved ("[function " +:+ name +:+ "]")
  | JDate (Some iso) => Resolved iso
  | JDate None => Rejected RangeError
  | JElement outerHTML (Some innerHTML) =>
      Resolved (slice0 outerHTML (indexOf outerHTML innerHTML))
  | JElement outerHTML None => Resolved outerHTML
  | JString s => Resolved s
  | JOther str => Resolved str
  end.

(** The inner loop over [Object.values(rowData)]. *)
Fixpoint stringifyRow (vals : list jsval) : outcome (list string) :=
  match vals with
  | [] => Resolved []
  | cell :: rest =>
      obind (stringifyCell cell) (fun s =>
      obind (stringifyRow rest) (fun ss => Resolved (s :: ss)))
  end.

(** The outer loop: row [i] of [data] becomes [csv[i + 1]], the row just
    pushed ([csv[0]] is the header row). *)
Fixpoint stringifyRows (data : list jsobj) : outcome (list (list string)) :=
  match data with
  | [] => Resolved []
  | rowData :: rest =>
      obind (stringifyRow (values rowData)) (fun r =>
      obind (stringifyRows rest) (fun rs => Resolved (r :: rs)))
  end.

(** [cell.replace(new RegExp(stringDelimiter, 'g'), dd)]: every delimiter
    character is replaced by two. *)
Fixpoint doubleDelimiter (d : ascii) (cell : string) : string :=
  match cell with
  | "" => ""
  | String c rest =>
      if Ascii.eqb c d then String d (String d (doubleDelimiter d rest))
      else String c (doubleDelimiter d rest)
  end.

(** The callback of [row.map] in the final expression. *)
Definition quoteCell (sep : string) (d : ascii) (cell : string) : string :=
  if includes cell (String dquote "") then
    String d (doubleDelimiter d cell) +:+ String d ""
  else if includes cell " " || includes cell sep then
    String d cell +:+ String d ""
  else cell.

Definition renderRow (sep : string) (d : ascii) (r : list string) : string :=
  join sep (quoteCell sep d <$> r).

Definition render (sep : string) (d : ascii) (csv : list (list string)) : string :=
  join (String LF "") (renderRow sep d <$> csv).

(** [toCsv(data, options)] *)
Definition toCsv (data : DataArg) (options : ToCsvOptions) : outcome string :=
  match data with
  | DataNull | DataUndefined => Rejected (SyntaxError "data not provided")
  | DataArray [] => Rejected (SyntaxError "data not provided")
  | DataArray (first :: rest) =>
      obind (stringifyRows (first :: rest)) (fun rows =>
        Resolved (render (toSeparator options)
                         (delimiterChar (toStringDelimiter options))
                         (keys first :: rows)))
  end.

End Serializer.

(** ** The parser of the first version, without callbacks *)

Module Legacy.
Import Js Parser.

(** [headers.map((key, idx) => [key, line[idx]])]; a hole of [headers]
    is skipped and stays a hole. *)
Fixpoint entriesOf (headers : list (option string)) (idx : nat)
    (line : list (option string)) : list (option (string * jsval)) :=
  match headers with
  | [] => []
  | None :: hs => None :: entriesOf hs (S idx) line
  | Some key :: hs => Some (key, cellValue line idx) :: entriesOf hs (S idx) line
  end.

(** [cells.map(line => Object.fromEntries(...))] *)
Fixpoint recordsOf (headers : option (list (option string))) (rows : grid)
  : outcome (list jsobj) :=
  match rows with
  | [] => Resolved []
  | line :: rest =>
      obind (match headers with
             | None => Rejected TypeError
             | Some hs => fromEntries (entriesOf hs 0 line)
             end) (fun o =>
      obind (recordsOf headers rest) (fun os => Resolved (o :: os)))
  end.

(** [parseCSV(csv, options)] *)
Definition parseCSV (csv : string) (options : CsvParserOptions)
  : outcome (list jsobj) :=
  match tokenize (separator options) (stringDelimiter options) csv with
  | Rejected e => Rejected e
  | Resolved cells =>
      if malformed cells then Rejected (SyntaxError "Malformed CSV")
      else recordsOf (resolveHeaders (header options) cells)
                     (dataRows (header options) cells)
  end.

End Legacy.

Import Js Parser Serializer.

(** ** Definitions used to state and prove the properties *)

Module Pure.

(** The character [c] occurs in [s]. *)
Fixpoint hasChar (c : ascii) (s : string) : bool :=
  match s with
  | "" => false
  | String a r => Ascii.eqb a c || hasChar c r
  end.

(** The scanner of one line as a function of the row alone: [done] are
    the closed cells, [cur] is the cell being built.  [scanLine] computes
    this on the row [cells[i]] (lemma [scanLine_lexRow]). *)
Fixpoint lexRow (sep : string) (d : ascii) (line : string)
    (done : list string) (cur : string) (inString : bool) : list string :=
  match line with
  | "" => done ++ [cur]
  | String char rest =>
      if String.eqb (String char "") sep then
        if inString then lexRow sep d rest done (cur +:+ String char "") inString
        else lexRow sep d rest (done ++ [cur]) "" inString
      else if Ascii.eqb char d then
        match rest with
        | String next rest' =>
            if inString && Ascii.eqb next d then
              lexRow sep d rest' done (cur +:+ String char "") inString
            else lexRow sep d rest done cur (negb inString)
        | "" => lexRow sep d rest done cur (negb inString)
        end
      else lexRow sep d rest done (cur +:+ String char "") inString
  end.

(** The row [cells[i]] while a line is scanned: the closed cells, then
    the cell being built; [currentCell] is its index. *)
Definition rowOf (done : list string) (cur : string) : list (option string) :=
  (Some <$> done) ++ [Some cur].

(** [rest] does not begin with the delimiter. *)
Definition noQuoteAhead (rest : string) : Prop :=
  match rest with
  | "" => True
  | String c _ => c <> dquote
  end.

(** A row as the scanner leaves it: no hole, at least one cell, no
    newline in a cell. *)
Definition wellFormedRow (r : list (option string)) : Prop :=
  exists l, r = Some <$> l /\ l <> [] /\
            Forall (fun s => hasChar LF s = false) l.

(** A cell without a carriage return. *)
Definition noCarriageReturn (c : option string) : Prop :=
  match c with
  | Some s => hasChar CR s = false
  | None => True
  end.

(** A row of strings that [toCsv] writes as a non-empty line without
    line-break characters of its own. *)
Definition goodRow (r : list string) : Prop :=
  r <> [] /\ r <> [""] /\
  Forall (fun s => hasChar LF s = false /\ hasChar CR s = false) r.

(** The record of a data row under the header [names], when the header
    selects no property of the callbacks object. *)
Definition recordOf (names vals : list string) : jsobj :=
  zip names (JString <$> vals).

(** Options with a one-character separator, the first row as header and
    the double quote as delimiter. *)
Definition optionsFor (sc : ascii) : CsvParserOptions :=
  {| separator := String sc ""; header := HeaderFirstRow;
     stringDelimiter := DoubleQuote |}.

Definition toCsvOptionsFor (sc : ascii) : ToCsvOptions :=
  {| toSeparator := String sc ""; toStringDelimiter := DoubleQuote |}.

(** The object [Object.fromEntries] builds from entries without holes,
    starting from [acc]. *)
Definition buildObj (es : list (string * jsval)) (acc : jsobj) : jsobj :=
  fold_left (fun o kv => objSet kv.1 kv.2 o) es acc.

(** The keys after a property [k] is set. *)
Definition addKey (ks : list string) (k : string) : list string :=
  if decide (k ∈ ks) then ks else ks ++ [k].

(** The string a string value holds. *)
Definition strOfVal (v : jsval) : string :=
  match v with
  | JString s => s
  | _ => ""
  end.

(** The cells [toCsv] writes for a record of strings. *)
Definition cellsOfRecord (o : jsobj) : list string := strOfVal <$> values o.

Definition isString (v : jsval) : Prop := exists s, v = JString s.

(** A string without line-break characters. *)
Definition printable (s : string) : Prop :=
  hasChar LF s = false /\ hasChar CR s = false.

(** A record that [toCsv] writes as a line the parser reads back: its
    keys are not the single empty name, its values are not a single empty
    string, and no key or string value holds a line-break character. *)
Definition cleanRecord (o : jsobj) : Prop :=
  keys o <> [""] /\ values o <> [JString ""] /\
  Forall printable (keys o) /\
  Forall (fun v => forall s, v = JString s -> printable s) (values o).

(** A header row whose names are pairwise different and none of which is
    an array-index key. *)
Definition plainHeader (h : list (option string)) : Prop :=
  exists names, h = Some <$> names /\ NoDup names /\
                Forall (fun k => arrayIndex k = None) names.

(** Two record sequences are equivalent when they have the same length
    and records at the same position agree on every key. *)
Definition sameRecords (a b : list jsobj) : Prop :=
  Forall2 (fun o o' => forall k, objGet k o = objGet k o') a b.

(** The round trip of one text, with the default callbacks [{}]:
    whenever the text parses, the records serialize and the serialized
    text parses to equivalent records. *)
Definition roundTrips (options : CsvParserOptions) (csv : string) : Prop :=
  forall recs,
    parseCSV (W := unit) emptyObject csv options tt = (Resolved recs, tt) ->
    exists text recs',
      toCsv (DataArray recs)
            {| toSeparator := separator options;
               toStringDelimiter := stringDelimiter options |}
      = Resolved text /\
      parseCSV (W := unit) emptyObject text options tt = (Resolved recs', tt) /\
      sameRecords recs recs'.

(** The column label of a spreadsheet (bijective base 26: A .. Z, AA ..),
    to compare [numberToCharacters] with: the letter of [(n - 1) mod 26]
    goes in front, and [n] becomes [(n - 1) / 26]. *)
Fixpoint columnLabelLoop (fuel : nat) (n : Z) (acc : string) : string :=
  match fuel with
  | O => acc
  | S fuel' =>
      if (0 <? n)%Z
      then columnLabelLoop fuel' ((n - 1) / 26)%Z
             (default "" (CellRef.charAt CellRef.characters ((n - 1) mod 26)%Z) +:+ acc)
      else acc
  end.

Definition columnLabel (n : Z) : string := columnLabelLoop (Z.to_nat n) n "".

(** The line-break of Windows texts. *)
Definition CRLF : string := String CR (String LF "").

(** A callback that returns a value whenever it is called. *)
Definition neverThrows {W : Type} (f : @callback W) : Prop :=
  forall v m w, exists v' w', f v m w = (Resolved v', w').

(** The number of rows the projection reads from a grid. *)
Definition dataRowCount (h : HeaderOption) (cells : grid) : nat :=
  length (dataRows h cells).

(** The header names the projection of a text uses: the cells of the first
    row or the names of the header list; none when the tokenizer
    rejects. *)
Definition headerNames (options : CsvParserOptions) (csv : string)
  : list string :=
  match tokenize (separator options) (stringDelimiter options) csv with
  | Resolved cells =>
      match resolveHeaders (header options) cells with
      | Some hs => omap id hs
      | None => []
      end
  | Rejected _ => []
  end.

(** A name that is not a property name of [Object.prototype]. *)
Definition ownName (name : string) : Prop := name ∉ objectPrototypeNames.

(** The string begins with a decimal digit. *)
Definition startsWithDigit (s : string) : bool :=
  match s with
  | "" => false
  | String c _ => bool_decide (is_Some (Ascii.is_nat c))
  end.

(** A property that, when called, returns or throws a [TypeError]. *)
Definition throwsTypeErrorOnly {W : Type} (f : @callback W) : Prop :=
  forall v m w e w', f v m w = (Rejected e, w') -> e = TypeError.

(** The property keys the projection looks up for the header [hs]: the
    header names and the decimal strings of the column indexes. *)
Definition selects (hs : list (option string)) (key : string) : Prop :=
  Some key ∈ hs \/ exists k : nat, (k < length hs)%nat /\ key = pretty k.

End Pure.

(** ** Sample texts *)

Module Samples.

(** The line [a,<q>b,c<q>,d], with [<q>] the double quote. *)
Definition quotedSeparatorLine : string :=
  "a," +:+ String dquote "b,c" +:+ String dquote ",d".

(** The line [<q>he said <q><q>hi<q><q><q>]. *)
Definition escapedQuoteLine : string :=
  String dquote "he said " +:+ String dquote (String dquote "hi")
    +:+ String dquote (String dquote (String dquote "")).

(** The cell [he said <q>hi<q>]. *)
Definition escapedQuoteCell : string :=
  "he said " +:+ String dquote "hi" +:+ String dquote "".

(** Two non-empty lines with an empty line between them. *)
Definition gapText : string := "a" +:+ String LF (String LF "b").

(** A header line and a data line holding one quoted empty cell. *)
Definition emptyCellText : string :=
  "a" +:+ String LF (String dquote (String dquote "")).

(** A header line and two data lines with a quoted separator and an
    escaped quote. *)
Definition quotedText : string :=
  "name,note" +:+ String LF ("Alan," +:+ String dquote "a, b" +:+ String dquote "")
    +:+ String LF ("Bo," +:+ escapedQuoteLine).

(** A text whose header names are repeated and one of which is an
    array-index key: [1,b,b], then two data lines. *)
Definition reorderedText : string :=
  "1,b,b" +:+ String LF ("x,u," +:+ String dquote "a, b" +:+ String dquote "")
    +:+ String LF (escapedQuoteLine +:+ ",v,").

(** Two data lines for a header list. *)
Definition headerListText : string := "1,Alan" +:+ String LF "2,Julian".

(** A callback that throws. *)
Definition throwingCallback (payload : string) : @callback (list string) :=
  fun v _ w => (Rejected (Thrown payload), (w ++ [payload])%list).

(** A ragged text: two cells, then one. *)
Definition raggedText : string := "a,b" +:+ String LF "1".

(** A callback that logs its key in the caller's state. *)
Definition logCallback (key : string) : @callback (list string) :=
  fun v _ w => (Resolved (JOther key), (w ++ [key])%list).

(** A header line whose only name is [toString], and one data line. *)
Definition inheritedNameText : string := "toString" +:+ String LF "x".

(** A header line whose only name is [__proto__], and one data line. *)
Definition protoNameText : string := "__proto__" +:+ String LF "x".



(** A callback that logs the cell and the position it is called with. *)
Definition positionCallback (key : string) : @callback (list string) :=
  fun v m w =>
    (Resolved (JOther (key +:+ CellRef.cellReferenceRC m)),
     (w ++ [key +:+ ":" +:+ Pure.strOfVal v +:+ "@" +:+ CellRef.cellReferenceRC m])%list).

End Samples.

(** ** The cell reference calculator *)

Lemma digitsLoop_total (fuel : nat) :
  forall (num : Z) (out : list Z),
    (Z.to_nat num < fuel)%nat -> is_Some (CellRef.digitsLoop fuel num out).
Proof.
  induction fuel as [|fuel IH]; intros num out Hlt; [lia|].
  simpl. destruct (Z.ltb_spec 0 num) as [Hpos|Hle]; [|by eexists].
  apply IH.
  assert (num / 26 < num)%Z by (apply Z.div_lt; lia).
  assert (0 <= num / 26)%Z by (apply Z.div_pos; lia).
  lia.
Qed.

(** The loop of [numberToCharacters] ends on every input: the fuel of
    the model is never used up. *)
Lemma numberToCharacters_total (num : Z) :
  is_Some (CellRef.numberToCharacters num).
Proof.
  unfold CellRef.numberToCharacters, CellRef.numberToCharactersFuel.
  destruct (num =? 1)%Z; [by eexists|].
  destruct (digitsLoop_total (S (Z.to_nat num)) (num - 1) []) as [l ->]; [lia|].
  by eexists.
Qed.

(** The labels of the indexes 1, 26, 27, 52, 53 and 703. *)
Lemma numberToCharacters_labels :
  CellRef.numberToCharacters <$> [1; 26; 27; 52; 53; 703]%Z
  = Some <$> ["A"; "Z"; "AA"; "AZ"; "BA"; "AAA"].
Proof. vm_compute. reflexivity. Qed.

(** C1 (failing input): for index 702 the loop leaves the digits
    [1; 0; 25]; the middle digit is mapped through [characters[-1]], which
    is [undefined] and is joined as the empty string, so the label is AZ
    and not ZZ. *)
Theorem numberToCharacters_702 :
  CellRef.digitsLoop 703 701 [] = Some [1; 0; 25]%Z /\
  CellRef.letterAt 3 1 0 = None /\
  CellRef.numberToCharacters 702 = Some "AZ" /\
  CellRef.numberToCharacters 702 <> Some "ZZ".
Proof. vm_compute. split; [|split; [|split]]; congruence. Qed.

(** ** Empty lines *)

Lemma tokenizeLines_all_empty sep d (lines : list string) :
  forall i cells,
    Forall (fun l => l = "") lines ->
    tokenizeLines sep d lines i cells = Resolved cells.
Proof.
  induction lines as [|l lines IH]; intros i cells Hall; [done|].
  inversion Hall as [|? ? Hl Hrest]; subst. simpl. by apply IH.
Qed.

(** C10: when every line of the text is empty (the empty text is one
    empty line), [parseCSV] resolves to the empty sequence of records, for
    every option and callback map, and no callback runs. *)
Theorem parseCSV_all_lines_empty {W : Type} (callbacks : gmap string callback)
    (csv : string) (options : CsvParserOptions) (w : W) :
  Forall (fun l => l = "") (splitLines csv) ->
  parseCSV callbacks csv options w = (Resolved [], w).
Proof.
  intros Hall. unfold parseCSV, tokenize.
  rewrite tokenizeLines_all_empty by done. simpl.
  by destruct (header options).
Qed.

Lemma parseCSV_all_lines_empty_witness :
  Forall (fun l => l = "") (splitLines (String LF (String CR (String LF "")))) /\
  parseCSV (W := unit) emptyObject (String LF (String CR (String LF ""))) defaultOptions tt
  = (Resolved [], tt).
Proof.
  assert (H : Forall (fun l => l = "")
                (splitLines (String LF (String CR (String LF ""))))).
  { vm_compute. repeat constructor. }
  split; [exact H|].
  exact (parseCSV_all_lines_empty emptyObject _ defaultOptions tt H).
Defined.

(** The empty text, with the default options. *)
Lemma parseCSV_empty_text {W : Type} (callbacks : gmap string callback) (w : W) :
  parseCSV callbacks "" defaultOptions w = (Resolved [], w).
Proof. reflexivity. Qed.

(** C2 (failing input): with an empty line between two non-empty lines
    the second row is pushed at index 1 of [cells] but looked up at the
    line index 2, so [result] is [undefined] and the first write to it
    throws: the promise is rejected with a [TypeError]. *)
Theorem parseCSV_gap_rejects {W : Type} (callbacks : gmap string callback) (w : W) :
  splitLines Samples.gapText = ["a"; ""; "b"] /\
  tokenize "," DoubleQuote Samples.gapText = Rejected TypeError /\
  parseCSV callbacks Samples.gapText defaultOptions w = (Rejected TypeError, w).
Proof.
  assert (Ht : tokenize "," DoubleQuote Samples.gapText = Rejected TypeError)
    by (vm_compute; reflexivity).
  split; [vm_compute; reflexivity|]. split; [exact Ht|].
  unfold parseCSV. simpl separator. simpl stringDelimiter. by rewrite Ht.
Qed.

(** ** The shape check *)

Lemma malformed_true (cells : grid) (row0 line : list (option string)) :
  cells !! 0 = Some row0 -> line ∈ cells -> length line <> length row0 ->
  malformed cells = true.
Proof.
  intros H0 Hin Hlen. unfold malformed. apply existsb_exists.
  exists line. split; [by apply list_elem_of_In|].
  rewrite H0. simpl. apply negb_true_iff. by apply Nat.eqb_neq.
Qed.

(** C5: when the tokenized grid has a row whose cell count differs from
    the cell count of row 0, [parseCSV] rejects with the syntax error
    Malformed CSV; no record is produced and no callback runs. *)
Theorem parseCSV_rejects_ragged {W : Type} (callbacks : gmap string callback)
    (csv : string) (options : CsvParserOptions) (w : W)
    (cells : grid) (row0 line : list (option string)) :
  tokenize (separator options) (stringDelimiter options) csv = Resolved cells ->
  cells !! 0 = Some row0 ->
  line ∈ cells ->
  length line <> length row0 ->
  parseCSV callbacks csv options w = (Rejected (SyntaxError "Malformed CSV"), w).
Proof.
  intros Htok H0 Hin Hlen. unfold parseCSV. rewrite Htok.
  by rewrite (malformed_true cells row0 line).
Qed.

Lemma parseCSV_rejects_ragged_witness :
  parseCSV (W := unit) emptyObject Samples.raggedText defaultOptions tt
  = (Rejected (SyntaxError "Malformed CSV"), tt).
Proof.
  apply (parseCSV_rejects_ragged emptyObject Samples.raggedText defaultOptions tt
           [[Some "a"; Some "b"]; [Some "1"]] [Some "a"; Some "b"] [Some "1"]).
  - vm_compute. reflexivity.
  - reflexivity.
  - apply list_elem_of_In. simpl. right. left. reflexivity.
  - simpl. lia.
Defined.

(** ** The character scanner *)

(** One round of the inner loop. *)
Lemma scanLine_step (sep : string) (d char : ascii) (rest : string)
    (i : nat) (cells : grid) (currentCell : nat) (inString : bool) :
  scanLine sep d (String char rest) i cells currentCell inString =
    if String.eqb (String char "") sep then
      if inString then
        obind (appendChar cells i currentCell char)
          (fun cells' => scanLine sep d rest i cells' currentCell inString)
      else
        obind (incrementCell cells i currentCell)
          (fun st => scanLine sep d rest i st.1 st.2 inString)
    else if Ascii.eqb char d then
      match rest with
      | String next rest' =>
          if inString && Ascii.eqb next d then
            obind (appendChar cells i currentCell char)
              (fun cells' => scanLine sep d rest' i cells' currentCell inString)
          else scanLine sep d rest i cells currentCell (negb inString)
      | "" => scanLine sep d rest i cells currentCell (negb inString)
      end
    else
      obind (appendChar cells i currentCell char)
        (fun cells' => scanLine sep d rest i cells' currentCell inString).
Proof. reflexivity. Qed.

(** Appending to a cell that is there. *)
Lemma appendChar_present (cells : grid) (i currentCell : nat) (char : ascii)
    (result : list (option string)) (cur : string) :
  cells !! i = Some result ->
  result !! currentCell = Some (Some cur) ->
  appendChar cells i currentCell char
  = Resolved (<[i := <[currentCell := Some (cur +:+ String char "")]> result]> cells).
Proof.
  intros Hi Hcur. unfold appendChar. rewrite Hi.
  unfold arrGet, arrSet. rewrite Hcur. simpl.
  apply lookup_lt_Some in Hcur. apply Nat.ltb_lt in Hcur. by rewrite Hcur.
Qed.

(** C6: the line [a,<q>b,c<q>,d] gives the three cells a / b,c / d; and
    in general, inside a quoted field ([inString] is true) a separator
    character is appended to the current cell: the row keeps its length
    and [currentCell] its value. *)
Theorem separator_inside_quotes :
  tokenize "," DoubleQuote Samples.quotedSeparatorLine
  = Resolved [[Some "a"; Some "b,c"; Some "d"]]
  /\ forall (sep : string) (d char : ascii) (rest : string)
       (i currentCell : nat) (cells : grid) (result : list (option string))
       (cur : string),
      String char "" = sep ->
      cells !! i = Some result ->
      result !! currentCell = Some (Some cur) ->
      scanLine sep d (String char rest) i cells currentCell true
      = scanLine sep d rest i
          (<[i := <[currentCell := Some (cur +:+ String char "")]> result]> cells)
          currentCell true
      /\ length (<[currentCell := Some (cur +:+ String char "")]> result)
         = length result.
Proof.
  split; [vm_compute; reflexivity|].
  intros sep d char rest i currentCell cells result cur Hsep Hi Hcur. split.
  - subst sep. rewrite scanLine_step, String.eqb_refl.
    by rewrite (appendChar_present _ _ _ _ _ _ Hi Hcur).
  - apply length_insert.
Qed.

Lemma separator_inside_quotes_witness :
  scanLine "," dquote ",x" 0 [[Some "a"; Some "b"]] 1 true
  = scanLine "," dquote "x" 0
      (<[0 := <[1 := Some "b,"]> [Some "a"; Some "b"]]> [[Some "a"; Some "b"]])
      1 true
  /\ length (<[1 := Some "b,"]> [Some "a"; Some "b"]) = 2%nat.
Proof.
  apply (proj2 separator_inside_quotes "," dquote ","%char "x" 0 1
           [[Some "a"; Some "b"]] [Some "a"; Some "b"] "b");
    reflexivity.
Defined.

(** C7: the line [<q>he said <q><q>hi<q><q><q>] gives the single cell
    [he said <q>hi<q>]; and in general, inside a quoted field a delimiter
    followed at once by another delimiter appends one delimiter character
    to the current cell and the scan goes on after the second one (the
    separator being another character than the delimiter). *)
Theorem doubled_delimiter_inside_quotes :
  tokenize "," DoubleQuote Samples.escapedQuoteLine
  = Resolved [[Some Samples.escapedQuoteCell]]
  /\ forall (sep : string) (d : ascii) (rest : string)
       (i currentCell : nat) (cells : grid) (result : list (option string))
       (cur : string),
      String d "" <> sep ->
      cells !! i = Some result ->
      result !! currentCell = Some (Some cur) ->
      scanLine sep d (String d (String d rest)) i cells currentCell true
      = scanLine sep d rest i
          (<[i := <[currentCell := Some (cur +:+ String d "")]> result]> cells)
          currentCell true.
Proof.
  split; [vm_compute; reflexivity|].
  intros sep d rest i currentCell cells result cur Hsep Hi Hcur.
  apply String.eqb_neq in Hsep.
  rewrite scanLine_step, Hsep, !Ascii.eqb_refl. simpl andb. cbv iota.
  by rewrite (appendChar_present _ _ _ _ _ _ Hi Hcur).
Qed.

Lemma doubled_delimiter_inside_quotes_witness :
  scanLine "," dquote (String dquote (String dquote "x")) 0 [[Some "a"]] 0 true
  = scanLine "," dquote "x" 0
      (<[0 := <[0 := Some ("a" +:+ String dquote "")]> [Some "a"]]> [[Some "a"]])
      0 true.
Proof.
  apply (proj2 doubled_delimiter_inside_quotes "," dquote "x" 0 0
           [[Some "a"]] [Some "a"] "a").
  - discriminate.
  - reflexivity.
  - reflexivity.
Defined.

(** ** The serializer *)

(** With the double quote as delimiter [quoteCell] is the rule of the
    specification: wrap and double when the cell holds the delimiter, wrap
    when it holds a space or the separator, else leave it bare. *)
Lemma quoteCell_double_quote (sep cell : string) :
  quoteCell sep dquote cell =
    if includes cell (String dquote "")
    then String dquote (doubleDelimiter dquote cell) +:+ String dquote ""
    else if includes cell " " || includes cell sep
         then String dquote cell +:+ String dquote ""
         else cell.
Proof. reflexivity. Qed.

(** C3 (failing input): with the single quote as delimiter the test of
    [quoteCell] still looks for a double quote.  The cell it's, which
    holds the delimiter, is left bare; the cell a<q>b, which holds neither
    the delimiter, a space nor the separator, is wrapped. *)
Theorem quoteCell_single_quote :
  includes "it's" "'" = true /\
  quoteCell "," squote "it's" = "it's" /\
  toCsv (DataArray [[("a", JString "it's")]])
        {| toSeparator := ","; toStringDelimiter := SingleQuote |}
  = Resolved ("a" +:+ String LF "it's") /\
  quoteCell "," squote ("a" +:+ String dquote "b")
  = "'a" +:+ String dquote "b'".
Proof. vm_compute. split; [|split; [|split]]; reflexivity. Qed.

(** C9: [toCsv] rejects with the syntax error data not provided when the
    record array is [null], [undefined] or empty, and never with that
    error when the array has a record. *)
Theorem toCsv_missing_input (options : ToCsvOptions) :
  toCsv DataNull options = Rejected (SyntaxError "data not provided") /\
  toCsv DataUndefined options = Rejected (SyntaxError "data not provided") /\
  toCsv (DataArray []) options = Rejected (SyntaxError "data not provided") /\
  forall (first : jsobj) (rest : list jsobj),
    toCsv (DataArray (first :: rest)) options
    <> Rejected (SyntaxError "data not provided").
Proof.
  split; [done|]. split; [done|]. split; [done|].
  intros first rest. unfold toCsv.
  assert (Hrow : forall vals e, stringifyRow vals = Rejected e -> e = RangeError).
  { induction vals as [|v vals IH]; intros e; simpl; [discriminate|].
    destruct v as [| | |?|[?|]|?[?|]|?]; simpl; try congruence;
      destruct (stringifyRow vals) eqn:E; simpl; try congruence;
      intros [= <-]; by apply IH. }
  assert (Hrows : forall data e, stringifyRows data = Rejected e -> e = RangeError).
  { induction data as [|o data IH]; intros e; simpl; [discriminate|].
    destruct (stringifyRow (values o)) eqn:E; simpl.
    - destruct (stringifyRows data) eqn:E'; simpl; [discriminate|].
      intros [= <-]. by apply IH.
    - intros [= <-]. by apply (Hrow _ _ E). }
  destruct (stringifyRows (first :: rest)) eqn:E; simpl; [discriminate|].
  intros [= ->]. by specialize (Hrows _ _ E).
Qed.

(** ** Record projection *)

Lemma objGet_objSet_eq (k : string) (v : jsval) (o : jsobj) :
  objGet k (objSet k v o) = v.
Proof.
  induction o as [|[k' v'] o IH]; simpl.
  - by rewrite String.eqb_refl.
  - destruct (String.eqb_spec k' k) as [->|Hne]; simpl.
    + by rewrite String.eqb_refl.
    + apply String.eqb_neq in Hne. by rewrite Hne.
Qed.

Lemma objGet_objSet_ne (k k' : string) (v : jsval) (o : jsobj) :
  k' <> k -> objGet k (objSet k' v o) = objGet k o.
Proof.
  intros Hne. induction o as [|[k0 v0] o IH]; simpl.
  - apply String.eqb_neq in Hne. by rewrite Hne.
  - destruct (String.eqb_spec k0 k') as [->|Hne0]; simpl.
    + apply String.eqb_neq in Hne. by rewrite Hne.
    + by rewrite IH.
Qed.

Lemma fold_addEntry_rejected (es : list (option (string * jsval))) (e : error) :
  fold_left addEntry es (Rejected e) = Rejected e.
Proof. induction es as [|x es IH]; simpl; [done|apply IH]. Qed.

Lemma fold_addEntry_other (name : string) (es : list (option (string * jsval))) :
  forall o0 o,
    fold_left addEntry es (Resolved o0) = Resolved o ->
    (forall j n v, es !! j = Some (Some (n, v)) -> n <> name) ->
    objGet name o = objGet name o0.
Proof.
  induction es as [|x es IH]; intros o0 o Hfold Hother; simpl in Hfold.
  - by injection Hfold as <-.
  - destruct x as [[n v]|]; simpl in Hfold.
    + rewrite (IH _ _ Hfold).
      * apply objGet_objSet_ne. by apply (Hother 0%nat n v).
      * intros j n' v' Hj. by apply (Hother (S j) n' v').
    + by rewrite fold_addEntry_rejected in Hfold.
Qed.

Lemma fold_addEntry_at (name : string) (val : jsval)
    (es : list (option (string * jsval))) :
  forall k o0 o,
    fold_left addEntry es (Resolved o0) = Resolved o ->
    es !! k = Some (Some (name, val)) ->
    (forall j n v, j <> k -> es !! j = Some (Some (n, v)) -> n <> name) ->
    objGet name o = val.
Proof.
  induction es as [|x es IH]; intros k o0 o Hfold Hk Hother; [done|].
  destruct k as [|k]; simpl in Hk, Hfold.
  - injection Hk as ->. simpl in Hfold.
    rewrite (fold_addEntry_other name es _ _ Hfold).
    + apply objGet_objSet_eq.
    + intros j n v Hj. by apply (Hother (S j) n v).
  - destruct x as [[n v]|]; simpl in Hfold.
    + apply (IH k _ _ Hfold Hk).
      intros j n' v' Hne Hj. apply (Hother (S j) n' v'); [lia|done].
    + by rewrite fold_addEntry_rejected in Hfold.
Qed.

Section ProjectionFacts.
Context {W : Type} (callbacks : gmap string (@callback W)).

(** The entries keep the names of the headers, column by column. *)
Lemma projectCells_names (line : list (option string)) (rowIdx : nat)
    (hs : list (option string)) :
  forall colIdx w es w',
    projectCells callbacks hs colIdx line rowIdx w = (Resolved es, w') ->
    forall j n v, es !! j = Some (Some (n, v)) -> hs !! j = Some (Some n).
Proof.
  induction hs as [|h hs IH]; intros colIdx w es w' Hp j n v Hj; simpl in Hp.
  - injection Hp as <- <-. done.
  - destruct h as [name|].
    + destruct (projectCell callbacks line rowIdx name colIdx w) as [[val|e] w1];
        [|done].
      destruct (projectCells callbacks hs (S colIdx) line rowIdx w1)
        as [[es1|e] w2] eqn:E; [|done].
      injection Hp as <- <-. destruct j as [|j]; simpl in *.
      * by injection Hj as -> ->.
      * by apply (IH _ _ _ _ E j n v).
    + destruct (projectCells callbacks hs (S colIdx) line rowIdx w)
        as [[es1|e] w2] eqn:E; [|done].
      injection Hp as <- <-. destruct j as [|j]; simpl in *; [done|].
      by apply (IH _ _ _ _ E j n v).
Qed.

(** A column under whose name and index [in] finds no property of the
    callbacks object contributes its raw cell. *)
Lemma projectCells_raw (line : list (option string)) (rowIdx : nat)
    (hs : list (option string)) :
  forall colIdx w es w',
    projectCells callbacks hs colIdx line rowIdx w = (Resolved es, w') ->
    forall k name,
      hs !! k = Some (Some name) ->
      callbacks !! name = None ->
      callbacks !! (pretty (colIdx + k)%nat : string) = None ->
      es !! k = Some (Some (name, cellValue line (colIdx + k))).
Proof.
  induction hs as [|h hs IH]; intros colIdx w es w' Hp k name Hk Hn Hi;
    [done|].
  destruct k as [|k]; simpl in Hk.
  - injection Hk as ->. rewrite Nat.add_0_r in *. simpl in Hp.
    unfold projectCell, callback in *. rewrite Hn, Hi in Hp.
    destruct (projectCells callbacks hs (S colIdx) line rowIdx w)
      as [[es1|e] w2]; [|done].
    by injection Hp as <- <-.
  - replace (colIdx + S k)%nat with (S colIdx + k)%nat in * by lia.
    simpl in Hp. destruct h as [name0|].
    + destruct (projectCell callbacks line rowIdx name0 colIdx w) as [[val|e] w1];
        [|done].
      destruct (projectCells callbacks hs (S colIdx) line rowIdx w1)
        as [[es1|e] w2] eqn:E; [|done].
      injection Hp as <- <-. simpl. by apply (IH _ _ _ _ E).
    + destruct (projectCells callbacks hs (S colIdx) line rowIdx w)
        as [[es1|e] w2] eqn:E; [|done].
      injection Hp as <- <-. simpl. by apply (IH _ _ _ _ E).
Qed.

End ProjectionFacts.

(** ** The default callbacks object *)

Lemma objectPrototype_names {W : Type} :
  (objectPrototype (W := W)).*1 = objectPrototypeNames.
Proof. reflexivity. Qed.

Lemma emptyObject_own {W : Type} (name : string) :
  Pure.ownName name -> emptyObject (W := W) !! name = None.
Proof.
  intros Hn. apply not_elem_of_list_to_map_1. by rewrite objectPrototype_names.
Qed.

Lemma emptyObject_inherited {W : Type} (name : string) (f : @callback W) :
  emptyObject !! name = Some f -> name ∈ objectPrototypeNames.
Proof.
  intros Hf. apply elem_of_list_to_map_2 in Hf.
  apply (list_elem_of_fmap_2 fst) in Hf. by rewrite objectPrototype_names in Hf.
Qed.

Lemma pretty_N_go_digit (x : N) :
  forall s, (0 < x)%N \/ Pure.startsWithDigit s = true ->
            Pure.startsWithDigit (pretty_N_go x s) = true.
Proof.
  induction (N.lt_wf_0 x) as [x _ IH]; intros s Hs.
  assert (x = 0 \/ 0 < x)%N as [->|Hx] by lia.
  - rewrite pretty_N_go_0. destruct Hs as [Hs|Hs]; [lia|done].
  - rewrite pretty_N_go_step by done. apply IH.
    + by apply N.div_lt.
    + right. simpl. unfold pretty_N_char. by repeat case_match.
Qed.

Lemma pretty_startsWithDigit (k : nat) :
  Pure.startsWithDigit (pretty k) = true.
Proof.
  unfold pretty, pretty_nat, pretty, pretty_N. case_decide as Hk; [done|].
  apply pretty_N_go_digit. left. lia.
Qed.

Lemma pretty_ownName (k : nat) : Pure.ownName (pretty k).
Proof.
  unfold Pure.ownName. intros Hin.
  pose proof (pretty_startsWithDigit k) as Hd.
  assert (Hall : Forall (fun n => Pure.startsWithDigit n = false) objectPrototypeNames)
    by (repeat constructor).
  rewrite Forall_forall in Hall. rewrite (Hall _ Hin) in Hd. discriminate.
Qed.

Lemma emptyObject_index {W : Type} (k : nat) :
  emptyObject (W := W) !! (pretty k : string) = None.
Proof. apply emptyObject_own, pretty_ownName. Qed.

(** A way to check that names are no property names of
    [Object.prototype]. *)
Lemma ownNames_intro (names : list string) :
  forallb (fun n => negb (bool_decide (n ∈ objectPrototypeNames))) names = true ->
  Forall Pure.ownName names.
Proof.
  intros Hall. apply Forall_forall. intros n Hn.
  rewrite forallb_forall in Hall. apply list_elem_of_In in Hn.
  specialize (Hall n Hn). apply negb_true_iff in Hall.
  by apply bool_decide_eq_false in Hall.
Qed.

(** Whatever is stored under the index key, the property found under the
    name of the column is the one called. *)
Lemma projectCell_precedence {W : Type} (callbacks : gmap string (@callback W))
    (line : list (option string)) (rowIdx colIdx : nat) (colName : string)
    (w : W) (f : callback) :
  callbacks !! colName = Some f ->
  projectCell callbacks line rowIdx colName colIdx w
  = f (cellValue line colIdx)
      (CellRef.csvCellMetadataFactory (colIdx + 1) colName (rowIdx + 1)) w.
Proof. intros Hf. unfold projectCell, callback in *. by rewrite Hf. Qed.

(** C8: with the default callbacks [{}] (no callback entry at all), the
    column named [toString] of the text [toString], newline, [x] does not
    get its raw cell [x]: [toString in callbacks] is true by inheritance,
    so the inherited method is called and the record holds the string
    [[object Object]].  The parser of the first version, which maps
    [[key, line[idx]]], keeps the raw cell. *)
Theorem callback_inherited_property {W : Type} (w : W) :
  tokenize "," DoubleQuote Samples.inheritedNameText
  = Resolved [[Some "toString"]; [Some "x"]]
  /\ parseCSV emptyObject Samples.inheritedNameText defaultOptions w
     = (Resolved [[("toString", JString "[object Object]")]], w)
  /\ Legacy.parseCSV Samples.inheritedNameText defaultOptions
     = Resolved [[("toString", JString "x")]].
Proof. split; [|split]; reflexivity. Qed.

(** ** Strings *)

Lemma str_app_nil_l (b : string) : "" +:+ b = b.
Proof. reflexivity. Qed.

Lemma str_app_cons (x : ascii) (a b : string) :
  String x a +:+ b = String x (a +:+ b).
Proof. reflexivity. Qed.

Lemma str_app_assoc (a b c : string) : (a +:+ b) +:+ c = a +:+ (b +:+ c).
Proof.
  induction a as [|x a IH]; [done|]. by rewrite !str_app_cons, IH.
Qed.

Lemma str_app_nil_r (a : string) : a +:+ "" = a.
Proof. induction a as [|x a IH]; [done|]. by rewrite str_app_cons, IH. Qed.

Lemma prefix_empty (s : string) : String.prefix "" s = true.
Proof. by destruct s. Qed.

Lemma includes_char (c : ascii) (s : string) :
  includes s (String c "") = Pure.hasChar c s.
Proof.
  induction s as [|a r IH]; [done|].
  simpl. rewrite IH. destruct (ascii_dec c a) as [->|Hne].
  - by rewrite prefix_empty, Ascii.eqb_refl.
  - assert (Ascii.eqb a c = false) as -> by (apply Ascii.eqb_neq; congruence).
    done.
Qed.

Lemma hasChar_app (c : ascii) (a b : string) :
  Pure.hasChar c (a +:+ b) = Pure.hasChar c a || Pure.hasChar c b.
Proof.
  induction a as [|x a IH]; [done|].
  rewrite str_app_cons. simpl. by rewrite IH, orb_assoc.
Qed.

(** ** The scanner as a function of the row *)

Lemma lexRow_step (sep : string) (d char : ascii) (rest : string)
    (done : list string) (cur : string) (inString : bool) :
  Pure.lexRow sep d (String char rest) done cur inString =
    if String.eqb (String char "") sep then
      if inString then Pure.lexRow sep d rest done (cur +:+ String char "") inString
      else Pure.lexRow sep d rest (done ++ [cur]) "" inString
    else if Ascii.eqb char d then
      match rest with
      | String next rest' =>
          if inString && Ascii.eqb next d then
            Pure.lexRow sep d rest' done (cur +:+ String char "") inString
          else Pure.lexRow sep d rest done cur (negb inString)
      | "" => Pure.lexRow sep d rest done cur (negb inString)
      end
    else Pure.lexRow sep d rest done (cur +:+ String char "") inString.
Proof. reflexivity. Qed.

Lemma rowOf_lookup (done : list string) (cur : string) :
  Pure.rowOf done cur !! length done = Some (Some cur).
Proof.
  unfold Pure.rowOf. rewrite lookup_app_r; rewrite length_fmap; [|lia].
  by rewrite Nat.sub_diag.
Qed.

Lemma rowOf_insert (done : list string) (cur v : string) :
  <[length done := Some v]> (Pure.rowOf done cur) = Pure.rowOf done v.
Proof.
  unfold Pure.rowOf. rewrite insert_app_r_alt; rewrite length_fmap; [|lia].
  by rewrite Nat.sub_diag.
Qed.

Lemma rowOf_grow (done : list string) (cur : string) :
  arrSet (Pure.rowOf done cur) (S (length done)) "" = Pure.rowOf (done ++ [cur]) "".
Proof.
  unfold arrSet, Pure.rowOf. rewrite length_app, length_fmap. simpl.
  assert ((S (length done) <? length done + 1)%nat = false) as ->
    by (apply Nat.ltb_ge; lia).
  replace (S (length done) - (length done + 1))%nat with 0%nat by lia.
  simpl. by rewrite fmap_app.
Qed.

Lemma scanLine_lexRow (sep : string) (d : ascii) (n : nat) :
  forall (line : string) (i : nat) (cells : grid) (done : list string)
         (cur : string) (inString : bool),
    (String.length line <= n)%nat ->
    cells !! i = Some (Pure.rowOf done cur) ->
    scanLine sep d line i cells (length done) inString
    = Resolved (<[i := Some <$> Pure.lexRow sep d line done cur inString]> cells).
Proof.
  induction n as [|n IH]; intros line i cells done cur inString Hlen Hi.
  - destruct line; simpl in Hlen; [|lia]. simpl.
    rewrite fmap_app. simpl. fold (Pure.rowOf done cur). by rewrite list_insert_id.
  - destruct line as [|char rest].
    { simpl. rewrite fmap_app. simpl. fold (Pure.rowOf done cur).
      by rewrite list_insert_id. }
    simpl in Hlen.
    assert (Happ : forall c,
      obind (appendChar cells i (length done) c)
        (fun cells' => scanLine sep d rest i cells' (length done) inString)
      = Resolved (<[i := Some <$> Pure.lexRow sep d rest done
                                    (cur +:+ String c "") inString]> cells)).
    { intros c.
      rewrite (appendChar_present _ _ _ _ _ _ Hi (rowOf_lookup done cur)).
      simpl. rewrite rowOf_insert, IH with (cur := cur +:+ String c "").
      - by rewrite list_insert_insert_eq.
      - lia.
      - apply list_lookup_insert_eq. by apply lookup_lt_Some in Hi. }
    rewrite scanLine_step, lexRow_step.
    destruct (String.eqb (String char "") sep).
    + destruct inString; [apply Happ|].
      unfold incrementCell. rewrite Hi. simpl. rewrite rowOf_grow.
      replace (S (length done)) with (length (done ++ [cur]))
        by (rewrite length_app; simpl; lia).
      rewrite IH with (cur := "").
      * by rewrite list_insert_insert_eq.
      * lia.
      * apply list_lookup_insert_eq. by apply lookup_lt_Some in Hi.
    + destruct (Ascii.eqb char d); [|apply Happ].
      destruct rest as [|next rest']; [by apply IH; [simpl; lia|]|].
      destruct (inString && Ascii.eqb next d).
      * rewrite (appendChar_present _ _ _ _ _ _ Hi (rowOf_lookup done cur)).
        simpl. rewrite rowOf_insert, IH with (cur := cur +:+ String char "").
        -- by rewrite list_insert_insert_eq.
        -- simpl in Hlen. lia.
        -- apply list_lookup_insert_eq. by apply lookup_lt_Some in Hi.
      * apply IH; [lia|done].
Qed.

(** ** Scanning what [toCsv] writes *)

Section Rendered.
Variable sc : ascii.
Hypothesis sc_not_quote : sc <> dquote.

Local Abbreviation sep := (String sc "").
Local Abbreviation lex := (Pure.lexRow (String sc "") dquote).

Lemma sep_eqb (c : ascii) : String.eqb (String c "") sep = Ascii.eqb c sc.
Proof.
  simpl. by destruct (Ascii.eqb c sc).
Qed.

Lemma lex_plain (c : ascii) (rest : string) (done : list string) (cur : string)
    (inString : bool) :
  c <> sc -> c <> dquote ->
  lex (String c rest) done cur inString
  = lex rest done (cur +:+ String c "") inString.
Proof.
  intros Hs Hq. rewrite lexRow_step, sep_eqb.
  apply Ascii.eqb_neq in Hs, Hq. by rewrite Hs, Hq.
Qed.

Lemma lex_sep_inside (rest : string) (done : list string) (cur : string) :
  lex (String sc rest) done cur true = lex rest done (cur +:+ String sc "") true.
Proof. by rewrite lexRow_step, sep_eqb, Ascii.eqb_refl. Qed.

Lemma lex_sep_outside (rest : string) (done : list string) (cur : string) :
  lex (String sc rest) done cur false = lex rest (done ++ [cur]) "" false.
Proof. by rewrite lexRow_step, sep_eqb, Ascii.eqb_refl. Qed.

Lemma quote_not_sep : Ascii.eqb dquote sc = false.
Proof. apply Ascii.eqb_neq. congruence. Qed.

Lemma lex_open (rest : string) (done : list string) (cur : string) :
  lex (String dquote rest) done cur false = lex rest done cur true.
Proof.
  rewrite lexRow_step, sep_eqb, quote_not_sep, Ascii.eqb_refl.
  by destruct rest.
Qed.

Lemma lex_doubled (rest : string) (done : list string) (cur : string) :
  lex (String dquote (String dquote rest)) done cur true
  = lex rest done (cur +:+ String dquote "") true.
Proof.
  by rewrite lexRow_step, sep_eqb, quote_not_sep, !Ascii.eqb_refl.
Qed.

Lemma lex_close (rest : string) (done : list string) (cur : string) :
  Pure.noQuoteAhead rest ->
  lex (String dquote rest) done cur true = lex rest done cur false.
Proof.
  intros Hrest. rewrite lexRow_step, sep_eqb, quote_not_sep, Ascii.eqb_refl.
  destruct rest as [|c rest]; [done|]. simpl in Hrest.
  apply Ascii.eqb_neq in Hrest. by rewrite Hrest.
Qed.

(** A bare cell: no delimiter and no separator in it. *)
Lemma lex_bare (cell : string) :
  forall (rest : string) (done : list string) (cur : string),
    Pure.hasChar dquote cell = false ->
    Pure.hasChar sc cell = false ->
    lex (cell +:+ rest) done cur false = lex rest done (cur +:+ cell) false.
Proof.
  induction cell as [|c cell IH]; intros rest done cur Hq Hs.
  - by rewrite str_app_nil_l, str_app_nil_r.
  - simpl in Hq, Hs. apply orb_false_iff in Hq as [Hq Hq'].
    apply orb_false_iff in Hs as [Hs Hs'].
    apply Ascii.eqb_neq in Hq, Hs.
    rewrite str_app_cons, lex_plain, IH by done.
    by rewrite str_app_assoc.
Qed.

(** The inside of a wrapped cell, up to and with the closing delimiter. *)
Lemma lex_wrapped (cell : string) :
  forall (rest : string) (done : list string) (cur : string),
    Pure.noQuoteAhead rest ->
    lex (doubleDelimiter dquote cell +:+ String dquote rest) done cur true
    = lex rest done (cur +:+ cell) false.
Proof.
  induction cell as [|c cell IH]; intros rest done cur Hrest.
  - change (doubleDelimiter dquote "") with "".
    by rewrite str_app_nil_l, str_app_nil_r, lex_close.
  - change (doubleDelimiter dquote (String c cell))
      with (if Ascii.eqb c dquote
            then String dquote (String dquote (doubleDelimiter dquote cell))
            else String c (doubleDelimiter dquote cell)).
    destruct (Ascii.eqb_spec c dquote) as [->|Hq].
    + rewrite !str_app_cons, lex_doubled, IH by done.
      by rewrite str_app_assoc.
    + rewrite str_app_cons.
      destruct (ascii_dec c sc) as [->|Hs].
      * rewrite lex_sep_inside, IH by done. by rewrite str_app_assoc.
      * rewrite lex_plain, IH by done. by rewrite str_app_assoc.
Qed.

Lemma doubleDelimiter_id (d : ascii) (cell : string) :
  Pure.hasChar d cell = false -> doubleDelimiter d cell = cell.
Proof.
  induction cell as [|c cell IH]; [done|]. simpl.
  intros [Hc Hrest]%orb_false_iff. rewrite Hc. by rewrite IH.
Qed.

(** One cell as [quoteCell] writes it, followed by [rest]. *)
Lemma lex_quoteCell (cell rest : string) (done : list string) :
  Pure.noQuoteAhead rest ->
  lex (quoteCell sep dquote cell +:+ rest) done "" false
  = lex rest done cell false.
Proof.
  intros Hrest. unfold quoteCell. rewrite !includes_char.
  destruct (Pure.hasChar dquote cell) eqn:Hq.
  - repeat (rewrite str_app_cons || rewrite str_app_assoc || rewrite str_app_nil_l).
    rewrite lex_open. by rewrite lex_wrapped.
  - destruct (Pure.hasChar " " cell || Pure.hasChar sc cell) eqn:Hw.
    + repeat (rewrite str_app_cons || rewrite str_app_assoc || rewrite str_app_nil_l).
      rewrite lex_open.
      rewrite <- (doubleDelimiter_id dquote cell Hq) at 1.
      by rewrite lex_wrapped.
    + apply orb_false_iff in Hw as [_ Hs].
      by rewrite lex_bare.
Qed.

(** A whole row as [renderRow] writes it. *)
Lemma lex_renderRow (r : list string) :
  forall acc, r <> [] ->
    lex (renderRow sep dquote r) acc "" false = (acc ++ r)%list.
Proof.
  induction r as [|cell r IH]; intros acc Hne; [done|].
  unfold renderRow, join. rewrite fmap_cons. simpl String.concat.
  destruct r as [|cell2 r].
  - simpl. rewrite <- (str_app_nil_r (quoteCell sep dquote cell)).
    by rewrite lex_quoteCell.
  - rewrite fmap_cons, str_app_cons, str_app_nil_l.
    rewrite lex_quoteCell by (simpl; exact sc_not_quote).
    rewrite lex_sep_outside.
    change (String.concat sep (quoteCell sep dquote cell2 :: (quoteCell sep dquote <$> r)))
      with (renderRow sep dquote (cell2 :: r)).
    rewrite IH by done. by rewrite <- app_assoc.
Qed.

End Rendered.

(** ** Splitting a text into lines *)

Lemma splitFrom_noBreak (l : string) :
  forall cur,
    Pure.hasChar LF l = false -> Pure.hasChar CR l = false ->
    splitFrom cur l = [cur +:+ l].
Proof.
  induction l as [|c l IH]; intros cur Hlf Hcr.
  - simpl. by rewrite str_app_nil_r.
  - simpl in Hlf, Hcr.
    apply orb_false_iff in Hlf as [Hlf Hlf'].
    apply orb_false_iff in Hcr as [Hcr Hcr'].
    simpl. rewrite Hlf, Hcr, IH by done. by rewrite str_app_assoc.
Qed.

Lemma splitFrom_line (l : string) :
  forall cur rest,
    Pure.hasChar LF l = false -> Pure.hasChar CR l = false ->
    splitFrom cur (l +:+ String LF rest) = (cur +:+ l) :: splitFrom "" rest.
Proof.
  induction l as [|c l IH]; intros cur rest Hlf Hcr.
  - rewrite str_app_nil_l, str_app_nil_r. reflexivity.
  - simpl in Hlf, Hcr.
    apply orb_false_iff in Hlf as [Hlf Hlf'].
    apply orb_false_iff in Hcr as [Hcr Hcr'].
    rewrite str_app_cons. simpl. rewrite Hlf, Hcr, IH by done.
    by rewrite str_app_assoc.
Qed.

(** Lines without line-break characters, joined by newlines, are split
    into themselves. *)
Lemma splitLines_join (ls : list string) :
  ls <> [] ->
  Forall (fun l => Pure.hasChar LF l = false /\ Pure.hasChar CR l = false) ls ->
  splitLines (join (String LF "") ls) = ls.
Proof.
  unfold splitLines, join. induction ls as [|l ls IH]; intros Hne Hall; [done|].
  inversion Hall as [|? ? [Hlf Hcr] Hrest]; subst.
  destruct ls as [|l2 ls].
  - simpl. by rewrite splitFrom_noBreak.
  - change (String.concat (String LF "") (l :: l2 :: ls))
      with (l +:+ String LF "" +:+ String.concat (String LF "") (l2 :: ls)).
    rewrite str_app_cons, str_app_nil_l, splitFrom_line by done.
    rewrite IH by done. done.
Qed.

(** ** The loop over the lines *)

Lemma tokenizeLines_step (sep : string) (d : ascii) (line : string)
    (rest : list string) (i : nat) (cells : grid) :
  tokenizeLines sep d (line :: rest) i cells =
    if String.eqb line "" then tokenizeLines sep d rest (S i) cells
    else obind (scanLine sep d line i (cells ++ [[Some ""]]) 0 false)
           (fun cells' => tokenizeLines sep d rest (S i) cells').
Proof. reflexivity. Qed.

(** A non-empty line whose row is pushed at the index of the line. *)
Lemma scanLine_pushed (sep : string) (d : ascii) (line : string) (cells : grid) :
  scanLine sep d line (length cells) (cells ++ [[Some ""]]) 0 false
  = Resolved (cells ++ [Some <$> Pure.lexRow sep d line [] "" false]).
Proof.
  change 0%nat with (length (@nil string)) at 1.
  rewrite (scanLine_lexRow sep d (String.length line) line (length cells)
             (cells ++ [[Some ""]]) [] "" false).
  - rewrite insert_app_r_alt by lia. by rewrite Nat.sub_diag.
  - lia.
  - rewrite lookup_app_r by lia. by rewrite Nat.sub_diag.
Qed.

(** Without an empty line every line gives its row. *)
Lemma tokenizeLines_nonempty (sep : string) (d : ascii) (lines : list string) :
  forall cells,
    Forall (fun l => l <> "") lines ->
    tokenizeLines sep d lines (length cells) cells
    = Resolved (cells ++
                ((fun l => Some <$> Pure.lexRow sep d l [] "" false) <$> lines)).
Proof.
  induction lines as [|l lines IH]; intros cells Hall.
  - simpl. by rewrite app_nil_r.
  - inversion Hall as [|? ? Hl Hrest]; subst.
    rewrite tokenizeLines_step.
    apply String.eqb_neq in Hl. rewrite Hl, scanLine_pushed. simpl.
    replace (S (length cells))
      with (length (cells ++ [Some <$> Pure.lexRow sep d l [] "" false]))
      by (rewrite length_app; simpl; lia).
    rewrite IH by done. by rewrite <- app_assoc.
Qed.

(** Empty lines after the last non-empty line do no harm: the rows are
    those of the non-empty lines, in order. *)
Lemma tokenizeLines_trailing_empty (sep : string) (d : ascii)
    (lines empties : list string) :
  Forall (fun l => l <> "") lines ->
  Forall (fun l => l = "") empties ->
  tokenizeLines sep d (lines ++ empties) 0 []
  = Resolved ((fun l => Some <$> Pure.lexRow sep d l [] "" false) <$> lines).
Proof.
  intros Hne Hem.
  assert (Hgen : forall ls cells,
    Forall (fun l => l <> "") ls ->
    tokenizeLines sep d (ls ++ empties) (length cells) cells
    = Resolved (cells ++
                ((fun l => Some <$> Pure.lexRow sep d l [] "" false) <$> ls))).
  { induction ls as [|l ls IH]; intros cells Hls.
    - simpl. rewrite tokenizeLines_all_empty by done. by rewrite app_nil_r.
    - inversion Hls as [|? ? Hl Hrest]; subst.
      rewrite <- app_comm_cons, tokenizeLines_step.
      apply String.eqb_neq in Hl. rewrite Hl, scanLine_pushed. simpl.
      replace (S (length cells))
        with (length (cells ++ [Some <$> Pure.lexRow sep d l [] "" false]))
        by (rewrite length_app; simpl; lia).
      rewrite IH by done. by rewrite <- app_assoc. }
  exact (Hgen lines [] Hne).
Qed.

(** ** What a tokenized grid looks like *)

Lemma hasChar_snoc (c x : ascii) (s : string) :
  Pure.hasChar c (s +:+ String x "") = Pure.hasChar c s || Ascii.eqb x c.
Proof. rewrite hasChar_app. simpl. by rewrite orb_false_r. Qed.

(** No line of [csv.split] holds a newline. *)
Lemma splitFrom_noLF (n : nat) :
  forall s cur,
    (String.length s <= n)%nat ->
    Pure.hasChar LF cur = false ->
    Forall (fun l => Pure.hasChar LF l = false) (splitFrom cur s).
Proof.
  induction n as [|n IH]; intros s cur Hlen Hcur.
  - destruct s; simpl in Hlen; [|lia]. simpl. by constructor.
  - destruct s as [|c rest]; [simpl; by constructor|].
    simpl in Hlen. simpl.
    assert (Hsnoc : forall x, Ascii.eqb x LF = false ->
              Pure.hasChar LF (cur +:+ String x "") = false).
    { intros x Hx. by rewrite hasChar_snoc, Hcur, Hx. }
    destruct (Ascii.eqb c LF) eqn:Hc.
    + constructor; [done|]. apply IH; [lia|done].
    + destruct (Ascii.eqb c CR).
      * destruct rest as [|c2 rest2]; [apply IH; [simpl; lia|by apply Hsnoc]|].
        destruct (Ascii.eqb c2 LF).
        -- constructor; [done|]. apply IH; [simpl in Hlen; lia|done].
        -- apply IH; [lia|by apply Hsnoc].
      * apply IH; [lia|by apply Hsnoc].
Qed.

(** The cells of a scanned line: at least one, none with a newline. *)
Lemma lexRow_shape (sep : string) (d : ascii) (n : nat) :
  forall line closed cur inString,
    (String.length line <= n)%nat ->
    Forall (fun s => Pure.hasChar LF s = false) closed ->
    Pure.hasChar LF cur = false ->
    Pure.hasChar LF line = false ->
    Pure.lexRow sep d line closed cur inString <> [] /\
    Forall (fun s => Pure.hasChar LF s = false)
           (Pure.lexRow sep d line closed cur inString).
Proof.
  induction n as [|n IH]; intros line closed cur inString Hlen Hcl Hcur Hline.
  - destruct line; simpl in Hlen; [|lia]. simpl. split.
    + by destruct closed.
    + apply Forall_app. split; [done|by constructor].
  - destruct line as [|c rest].
    { simpl. split; [by destruct closed|].
      apply Forall_app. split; [done|by constructor]. }
    simpl in Hlen, Hline. apply orb_false_iff in Hline as [Hc Hrest].
    assert (Hsnoc : Pure.hasChar LF (cur +:+ String c "") = false)
      by (by rewrite hasChar_snoc, Hcur, Hc).
    rewrite lexRow_step.
    destruct (String.eqb (String c "") sep).
    + destruct inString; [apply IH; (lia || done)|].
      apply IH; try (lia || done).
      apply Forall_app. split; [done|by constructor].
    + destruct (Ascii.eqb c d); [|apply IH; (lia || done)].
      destruct rest as [|next rest']; [apply IH; (simpl; lia) || done|].
      destruct (inString && Ascii.eqb next d).
      * simpl in Hrest. apply orb_false_iff in Hrest as [_ Hrest'].
        apply IH; try done. simpl in Hlen. lia.
      * apply IH; (lia || done).
Qed.

(** While [cells[i]] is [undefined] a line can only be scanned to the
    end if it never writes: the grid is unchanged. *)
Lemma scanLine_absent (sep : string) (d : ascii) (n : nat) :
  forall line i (cells cells' : grid) currentCell inString,
    (String.length line <= n)%nat ->
    cells !! i = None ->
    scanLine sep d line i cells currentCell inString = Resolved cells' ->
    cells' = cells.
Proof.
  induction n as [|n IH]; intros line i cells cells' cc b Hlen Hi Hscan.
  - destruct line; simpl in Hlen; [|lia]. simpl in Hscan. congruence.
  - destruct line as [|c rest]; [simpl in Hscan; congruence|].
    simpl in Hlen. rewrite scanLine_step in Hscan.
    unfold appendChar, incrementCell in Hscan. rewrite Hi in Hscan.
    unfold obind in Hscan.
    destruct (String.eqb (String c "") sep).
    + by destruct b.
    + destruct (Ascii.eqb c d); [|done].
      destruct rest as [|next rest'].
      * refine (IH _ _ _ _ _ _ _ Hi Hscan). simpl. lia.
      * destruct (b && Ascii.eqb next d); [done|].
        refine (IH _ _ _ _ _ _ _ Hi Hscan). simpl in *. lia.
Qed.

Lemma tokenizeLines_shape (sep : string) (d : ascii) (lines : list string) :
  forall i (cells cells' : grid),
    (length cells <= i)%nat ->
    Forall (fun l => Pure.hasChar LF l = false) lines ->
    Forall Pure.wellFormedRow cells ->
    tokenizeLines sep d lines i cells = Resolved cells' ->
    Forall Pure.wellFormedRow cells'.
Proof.
  induction lines as [|l lines IH]; intros i cells cells' Hi Hlf Hwf Htok.
  - simpl in Htok. congruence.
  - inversion Hlf as [|? ? Hl Hrest]; subst.
    rewrite tokenizeLines_step in Htok.
    destruct (String.eqb l "").
    + apply (IH (S i) cells cells'); (lia || done).
    + destruct (scanLine sep d l i (cells ++ [[Some ""]]) 0 false)
        as [cells1|e] eqn:Hscan; [|done]. simpl in Htok.
      apply (IH (S i) cells1 cells'); try done.
      * destruct (decide (i = length cells)) as [->|Hne].
        -- rewrite scanLine_pushed in Hscan. injection Hscan as <-.
           rewrite length_app. simpl. lia.
        -- apply scanLine_absent with (n := String.length l) in Hscan; [|lia|].
           ++ subst. rewrite length_app. simpl. lia.
           ++ apply lookup_ge_None. rewrite length_app. simpl. lia.
      * destruct (decide (i = length cells)) as [->|Hne].
        -- rewrite scanLine_pushed in Hscan. injection Hscan as <-.
           apply Forall_app. split; [done|]. constructor; [|done].
           exists (Pure.lexRow sep d l [] "" false). split; [done|].
           by apply (lexRow_shape sep d (String.length l)).
        -- apply scanLine_absent with (n := String.length l) in Hscan; [|lia|].
           ++ subst. apply Forall_app. split; [done|]. constructor; [|done].
              exists [""]. split; [done|]. split; [done|]. by repeat constructor.
           ++ apply lookup_ge_None. rewrite length_app. simpl. lia.
Qed.

(** Every row of a tokenized grid has at least one cell, has no hole and
    has no newline in its cells. *)
Lemma tokenize_shape (sep : string) (d : StringDelimiter) (csv : string)
    (cells : grid) :
  tokenize sep d csv = Resolved cells -> Forall Pure.wellFormedRow cells.
Proof.
  unfold tokenize, splitLines. intros Htok.
  apply (tokenizeLines_shape _ _ _ 0 [] cells) in Htok; try done.
  by apply (splitFrom_noLF (String.length csv)).
Qed.

(** ** The lines [toCsv] writes *)

Lemma hasChar_doubleDelimiter (c d : ascii) (cell : string) :
  c <> d ->
  Pure.hasChar c (doubleDelimiter d cell) = Pure.hasChar c cell.
Proof.
  intros Hne. induction cell as [|x cell IH]; [done|]. simpl.
  destruct (Ascii.eqb_spec x d) as [->|Hx]; simpl; rewrite IH; [|done].
  assert (Ascii.eqb d c = false) as -> by (apply Ascii.eqb_neq; congruence).
  done.
Qed.

Lemma hasChar_quoteCell (c d : ascii) (sep cell : string) :
  c <> d ->
  Pure.hasChar c cell = false ->
  Pure.hasChar c (quoteCell sep d cell) = false.
Proof.
  intros Hne Hcell.
  assert (Hd : Ascii.eqb d c = false) by (apply Ascii.eqb_neq; congruence).
  unfold quoteCell.
  destruct (includes cell (String dquote "")).
  - rewrite str_app_cons. simpl.
    by rewrite Hd, hasChar_snoc, hasChar_doubleDelimiter, Hcell, Hd.
  - destruct (includes cell " " || includes cell sep); [|done].
    rewrite str_app_cons. simpl. by rewrite Hd, hasChar_snoc, Hcell, Hd.
Qed.

Lemma concat_cons2 (sep x y : string) (l : list string) :
  String.concat sep (x :: y :: l) = x +:+ sep +:+ String.concat sep (y :: l).
Proof. reflexivity. Qed.

Lemma hasChar_renderRow (c d : ascii) (sep : string) (r : list string) :
  c <> d ->
  Pure.hasChar c sep = false ->
  Forall (fun s => Pure.hasChar c s = false) r ->
  Pure.hasChar c (renderRow sep d r) = false.
Proof.
  intros Hne Hsep. unfold renderRow, join.
  induction r as [|x r IH]; intros Hall; [done|].
  inversion Hall as [|? ? Hx Hr]; subst. rewrite fmap_cons.
  destruct r as [|y r]; [by apply hasChar_quoteCell|].
  rewrite fmap_cons, concat_cons2, !hasChar_app, Hsep.
  rewrite hasChar_quoteCell by done. simpl. by apply IH.
Qed.

Lemma str_app_not_empty (a b : string) : b <> "" -> a +:+ b <> "".
Proof. intros Hb. destruct a; [done|]. by rewrite str_app_cons. Qed.

(** A row is written as the empty line only when it has no cell or is
    one empty cell. *)
Lemma renderRow_not_empty (sc d : ascii) (r : list string) :
  r <> [] -> r <> [""] -> renderRow (String sc "") d r <> "".
Proof.
  intros Hne Hne'. unfold renderRow, join.
  destruct r as [|x [|y r]]; [done| |].
  - simpl. unfold quoteCell.
    destruct (includes x (String dquote "")); [by rewrite str_app_cons|].
    destruct (includes x " " || includes x (String sc ""));
      [by rewrite str_app_cons|].
    congruence.
  - rewrite !fmap_cons, concat_cons2.
    apply str_app_not_empty. by rewrite str_app_cons.
Qed.

(** ** Objects whose keys are plain names *)

Lemma objSet_fresh (k : string) (v : jsval) (o : jsobj) :
  k ∉ o.*1 -> objSet k v o = o ++ [(k, v)].
Proof.
  induction o as [|[k' v'] o IH]; intros Hk; [done|]. simpl.
  rewrite fmap_cons in Hk. apply not_elem_of_cons in Hk as [Hne Hk].
  simpl in Hne.
  assert (String.eqb k' k = false) as -> by (apply String.eqb_neq; congruence).
  by rewrite IH.
Qed.

Lemma fold_addEntry_fresh (es : jsobj) :
  forall acc,
    NoDup ((acc ++ es).*1) ->
    fold_left addEntry (Some <$> es) (Resolved acc) = Resolved (acc ++ es).
Proof.
  induction es as [|[k v] es IH]; intros acc Hnd.
  - simpl. by rewrite app_nil_r.
  - rewrite fmap_cons. simpl.
    rewrite objSet_fresh.
    + rewrite IH; rewrite <- app_assoc; done.
    + rewrite fmap_app in Hnd. apply NoDup_app in Hnd as (_ & Hdis & _).
      intros Hin. apply (Hdis k Hin). rewrite fmap_cons. by left.
Qed.

Lemma fromEntries_plain (o : jsobj) :
  NoDup (o.*1) -> fromEntries (Some <$> o) = Resolved o.
Proof. intros Hnd. unfold fromEntries. by rewrite fold_addEntry_fresh. Qed.

Lemma indexKeys_plain (ks : list string) :
  Forall (fun k => arrayIndex k = None) ks -> indexKeys ks = [].
Proof.
  induction ks as [|k ks IH]; intros Hall; [done|].
  inversion Hall as [|? ? Hk Hrest]; subst.
  unfold indexKeys in *. simpl. rewrite Hk. by apply IH.
Qed.

Lemma filter_plain (ks : list string) :
  Forall (fun k => arrayIndex k = None) ks ->
  filter (fun k => arrayIndex k = None) ks = ks.
Proof.
  induction ks as [|k ks IH]; intros Hall; [done|].
  inversion Hall as [|? ? Hk Hrest]; subst.
  rewrite filter_cons_True by done. by rewrite IH.
Qed.

Lemma ownKeys_plain (o : jsobj) :
  Forall (fun k => arrayIndex k = None) (o.*1) -> ownKeys o = o.*1.
Proof.
  intros Hall. unfold ownKeys, orderKeys.
  by rewrite indexKeys_plain, filter_plain.
Qed.

Lemma objGet_first (k : string) (v : jsval) (o : jsobj) (ks : list string) :
  k ∉ ks ->
  (fun k' => objGet k' ((k, v) :: o)) <$> ks = (fun k' => objGet k' o) <$> ks.
Proof.
  intros Hk. induction ks as [|k' ks IH]; [done|].
  apply not_elem_of_cons in Hk as [Hne Hk]. rewrite !fmap_cons, IH by done.
  simpl.
  assert (String.eqb k k' = false) as -> by (by apply String.eqb_neq).
  done.
Qed.

Lemma values_plain (o : jsobj) :
  NoDup (o.*1) -> Forall (fun k => arrayIndex k = None) (o.*1) ->
  values o = o.*2.
Proof.
  intros Hnd Hall. unfold values. rewrite ownKeys_plain by done. clear Hall.
  induction o as [|[k v] o IH]; [done|].
  rewrite !fmap_cons in *. apply NoDup_cons in Hnd as [Hk Hnd].
  simpl. rewrite String.eqb_refl. f_equal.
  etrans; [exact (objGet_first k v o _ Hk)|by apply IH].
Qed.

Lemma stringifyRow_strings (vals : list string) :
  stringifyRow (JString <$> vals) = Resolved vals.
Proof.
  induction vals as [|v vals IH]; [done|].
  rewrite fmap_cons. simpl. by rewrite IH.
Qed.

(** ** Projection with a callbacks object without properties *)

Lemma cellValue_at (pre : list string) (v : string) (vals : list string) :
  cellValue (Some <$> (pre ++ v :: vals)) (length pre) = JString v.
Proof.
  unfold cellValue, arrGet.
  rewrite list_lookup_fmap, lookup_app_r by lia.
  by rewrite Nat.sub_diag.
Qed.

Lemma projectCells_plain {W : Type} (rowIdx : nat) (names : list string) :
  forall (pre vals : list string) (w : W),
    length names = length vals ->
    projectCells ∅ (Some <$> names) (length pre) (Some <$> (pre ++ vals)) rowIdx w
    = (Resolved (Some <$> Pure.recordOf names vals), w).
Proof.
  induction names as [|n names IH]; intros pre vals w Hlen.
  - by destruct vals.
  - destruct vals as [|v vals]; [done|]. simpl in Hlen.
    rewrite fmap_cons. simpl.
    unfold projectCell, callback. rewrite !lookup_empty, cellValue_at.
    replace (S (length pre)) with (length (pre ++ [v]))
      by (rewrite length_app; simpl; lia).
    replace (pre ++ v :: vals) with ((pre ++ [v]) ++ vals)
      by (by rewrite <- app_assoc).
    rewrite IH by lia. done.
Qed.

Lemma recordOf_keys (names vals : list string) :
  length names = length vals -> (Pure.recordOf names vals).*1 = names.
Proof.
  intros Hlen. unfold Pure.recordOf. apply fst_zip. rewrite length_fmap. lia.
Qed.

Lemma recordOf_values (names vals : list string) :
  length names = length vals ->
  (Pure.recordOf names vals).*2 = JString <$> vals.
Proof.
  intros Hlen. unfold Pure.recordOf. apply snd_zip. rewrite length_fmap. lia.
Qed.

Lemma projectRow_plain {W : Type} (rowIdx : nat) (names vals : list string)
    (w : W) :
  NoDup names -> length names = length vals ->
  projectRow ∅ (Some (Some <$> names)) (Some <$> vals) rowIdx w
  = (Resolved (Pure.recordOf names vals), w).
Proof.
  intros Hnd Hlen. unfold projectRow.
  pose proof (projectCells_plain rowIdx names [] vals w Hlen) as Hcells.
  change (length (@nil string)) with 0%nat in Hcells.
  change ([] ++ vals) with vals in Hcells. rewrite Hcells.
  rewrite fromEntries_plain; [done|]. by rewrite recordOf_keys.
Qed.

Lemma projectRows_step {W : Type} (callbacks : gmap string (@callback W))
    (headers : option (list (option string))) (line : list (option string))
    (rest : grid) (rowIdx : nat) (w : W) :
  projectRows callbacks headers (line :: rest) rowIdx w =
    match projectRow callbacks headers line rowIdx w with
    | (Resolved o, w') =>
        match projectRows callbacks headers rest (S rowIdx) w' with
        | (Resolved os, w'') => (Resolved (o :: os), w'')
        | (Rejected e, w'') => (Rejected e, w'')
        end
    | (Rejected e, w') => (Rejected e, w')
    end.
Proof. reflexivity. Qed.

Lemma projectRows_plain {W : Type} (names : list string)
    (valss : list (list string)) :
  forall (rowIdx : nat) (w : W),
    NoDup names ->
    Forall (fun vals => length names = length vals) valss ->
    projectRows ∅ (Some (Some <$> names)) (fmap (M := list) Some <$> valss) rowIdx w
    = (Resolved (Pure.recordOf names <$> valss), w).
Proof.
  induction valss as [|vals valss IH]; intros rowIdx w Hnd Hall; [done|].
  inversion Hall as [|? ? Hlen Hrest]; subst.
  rewrite !fmap_cons, projectRows_step.
  rewrite projectRow_plain by done. by rewrite IH.
Qed.

(** ** Callbacks objects without a property for a column *)

Section Unselected.
Context {W : Type} (callbacks : gmap string (@callback W)).
Hypothesis no_index : forall k : nat, callbacks !! (pretty k : string) = None.

Lemma projectCells_unselected (line : list (option string)) (rowIdx : nat)
    (hs : list (option string)) :
  (forall n, Some n ∈ hs -> callbacks !! n = None) ->
  forall colIdx w,
    projectCells callbacks hs colIdx line rowIdx w
    = projectCells ∅ hs colIdx line rowIdx w.
Proof.
  induction hs as [|[name|] hs IH]; intros Hn colIdx w; [done| |].
  - simpl. unfold projectCell, callback in *.
    rewrite (Hn name) by left. rewrite no_index, !lookup_empty.
    rewrite IH; [done|]. intros n Hin. apply Hn. by right.
  - simpl. rewrite IH; [done|]. intros n Hin. apply Hn. by right.
Qed.

Lemma projectRows_unselected (headers : option (list (option string)))
    (rows : grid) :
  (forall hs n, headers = Some hs -> Some n ∈ hs -> callbacks !! n = None) ->
  forall rowIdx w,
    projectRows callbacks headers rows rowIdx w
    = projectRows ∅ headers rows rowIdx w.
Proof.
  intros Hn. induction rows as [|line rows IH]; intros rowIdx w; [done|].
  rewrite !projectRows_step. unfold projectRow.
  destruct headers as [hs|]; [|done].
  rewrite projectCells_unselected by (intros n; by apply Hn).
  destruct (projectCells ∅ hs 0 line rowIdx w) as [[es|e] w1]; [|done].
  destruct (fromEntries es) as [o|e]; [|done]. by rewrite IH.
Qed.

Lemma parseCSV_unselected (csv : string) (options : CsvParserOptions) (w : W) :
  Forall (fun n => callbacks !! n = None) (Pure.headerNames options csv) ->
  parseCSV callbacks csv options w = parseCSV ∅ csv options w.
Proof.
  unfold Pure.headerNames, parseCSV. intros Hn.
  destruct (tokenize (separator options) (stringDelimiter options) csv)
    as [cells|e]; [|done].
  destruct (malformed cells); [done|].
  apply projectRows_unselected. intros hs n Hhs Hin. rewrite Hhs in Hn.
  rewrite Forall_forall in Hn. apply Hn.
  apply list_elem_of_omap. by exists (Some n).
Qed.

End Unselected.

Lemma parseCSV_emptyObject {W : Type} (csv : string) (options : CsvParserOptions)
    (w : W) :
  Forall Pure.ownName (Pure.headerNames options csv) ->
  parseCSV emptyObject csv options w = parseCSV ∅ csv options w.
Proof.
  intros Hn. apply parseCSV_unselected.
  - apply emptyObject_index.
  - apply (Forall_impl _ _ _ Hn). intros n. apply emptyObject_own.
Qed.

(** ** Serializing records of strings *)

Lemma stringifyRows_plain (names : list string) (valss : list (list string)) :
  NoDup names -> Forall (fun k => arrayIndex k = None) names ->
  Forall (fun vals => length names = length vals) valss ->
  stringifyRows (Pure.recordOf names <$> valss) = Resolved valss.
Proof.
  intros Hnd Hidx Hall. induction valss as [|vals valss IH]; [done|].
  inversion Hall as [|? ? Hlen Hrest]; subst.
  rewrite fmap_cons. simpl.
  rewrite values_plain, recordOf_values, stringifyRow_strings
    by (by rewrite ?recordOf_keys).
  simpl. by rewrite IH.
Qed.

Lemma toCsv_plain (sc : ascii) (names vals : list string)
    (valss : list (list string)) :
  NoDup names -> Forall (fun k => arrayIndex k = None) names ->
  Forall (fun vals => length names = length vals) (vals :: valss) ->
  toCsv (DataArray (Pure.recordOf names <$> (vals :: valss)))
        (Pure.toCsvOptionsFor sc)
  = Resolved (render (String sc "") dquote (names :: vals :: valss)).
Proof.
  intros Hnd Hidx Hall. unfold toCsv. rewrite fmap_cons.
  change (Pure.recordOf names vals :: (Pure.recordOf names <$> valss))
    with (Pure.recordOf names <$> (vals :: valss)).
  rewrite stringifyRows_plain by done. simpl.
  unfold keys. rewrite ownKeys_plain, recordOf_keys; try done.
  - by inversion Hall.
  - rewrite recordOf_keys; [done|by inversion Hall].
Qed.

(** ** Tokenizing what [toCsv] wrote *)

Lemma tokenize_render (sc : ascii) (rows : list (list string)) :
  sc <> dquote -> sc <> LF -> sc <> CR ->
  rows <> [] -> Forall Pure.goodRow rows ->
  tokenize (String sc "") DoubleQuote (render (String sc "") dquote rows)
  = Resolved (fmap (M := list) Some <$> rows).
Proof.
  intros Hq Hlf Hcr Hne Hall. unfold tokenize, render.
  assert (Hsep : forall c, sc <> c -> Pure.hasChar c (String sc "") = false).
  { intros c Hc. simpl. apply Ascii.eqb_neq in Hc. by rewrite Hc. }
  rewrite splitLines_join.
  - rewrite (tokenizeLines_nonempty _ _ _ []).
    + simpl. f_equal. rewrite <- list_fmap_compose.
      apply list_fmap_ext. intros i r Hr. simpl.
      apply list_elem_of_lookup_2 in Hr.
      rewrite Forall_forall in Hall. destruct (Hall r Hr) as (Hr1 & _ & _).
      by rewrite (lex_renderRow sc Hq r [] Hr1).
    + apply Forall_fmap, (Forall_impl _ _ _ Hall).
      intros r (Hr1 & Hr2 & _). simpl. by apply renderRow_not_empty.
  - by destruct rows.
  - apply Forall_fmap, (Forall_impl _ _ _ Hall).
    intros r (_ & _ & Hr3). simpl. split.
    + apply hasChar_renderRow; [done|by apply Hsep|].
      apply (Forall_impl _ _ _ Hr3). by intros s [? ?].
    + apply hasChar_renderRow; [done|by apply Hsep|].
      apply (Forall_impl _ _ _ Hr3). by intros s [? ?].
Qed.

(** ** The round trip *)

Lemma malformed_false (hdr : list (option string)) (rows : grid) :
  malformed (hdr :: rows) = false ->
  Forall (fun r => length r = length hdr) rows.
Proof.
  unfold malformed. change ((hdr :: rows) !! 0) with (Some hdr).
  simpl default. simpl existsb. intros [_ Hrows]%orb_false_iff.
  induction rows as [|r rows IH]; [done|].
  simpl in Hrows. apply orb_false_iff in Hrows as [Hr Hrows].
  constructor; [|by apply IH].
  apply negb_false_iff in Hr. by apply Nat.eqb_eq.
Qed.

Lemma rows_strings (cells : grid) :
  Forall Pure.wellFormedRow cells ->
  Forall (Forall Pure.noCarriageReturn) cells ->
  Forall (fun r => r <> [Some ""]) cells ->
  exists rows : list (list string),
    cells = (fmap (M := list) Some <$> rows) /\ Forall Pure.goodRow rows.
Proof.
  induction cells as [|r cells IH]; intros Hwf Hcr Hsingle.
  - by exists [].
  - inversion Hwf as [|? ? (l & -> & Hl & Hlf) Hwf']; subst.
    inversion Hcr as [|? ? Hr Hcr']; subst.
    inversion Hsingle as [|? ? Hs Hsingle']; subst.
    destruct (IH Hwf' Hcr' Hsingle') as (rows & -> & Hgood).
    exists (l :: rows). split; [done|]. constructor; [|done].
    split; [done|]. split; [by intros ->|].
    rewrite Forall_fmap in Hr. rewrite Forall_forall in Hlf.
    rewrite Forall_forall in Hr.
    apply Forall_forall. intros s Hs'. split; [by apply Hlf|by apply (Hr s)].
Qed.

(** With a one-character separator other than the double quote and the
    line breaks, the first row as header, the double quote as delimiter
    and a callbacks object without properties, take a text that parses to
    at least one record,
    whose header names are pairwise different and no array-index keys,
    whose cells hold no carriage return and none of whose rows is a single
    empty cell.  Then [toCsv] of the records resolves, and parsing its text
    gives the very same records, key order included. *)
Lemma roundtrip_plain {W : Type} (w : W) (sc : ascii) (csv : string)
    (cells : grid) (recs : list jsobj) :
  sc <> dquote -> sc <> LF -> sc <> CR ->
  tokenize (String sc "") DoubleQuote csv = Resolved cells ->
  Pure.plainHeader (default [] (cells !! 0)) ->
  Forall (Forall Pure.noCarriageReturn) cells ->
  Forall (fun r => r <> [Some ""]) cells ->
  parseCSV (W := W) ∅ csv (Pure.optionsFor sc) w = (Resolved recs, w) ->
  recs <> [] ->
  exists text,
    toCsv (DataArray recs) (Pure.toCsvOptionsFor sc) = Resolved text /\
    parseCSV (W := W) ∅ text (Pure.optionsFor sc) w = (Resolved recs, w).
Proof.
  intros Hq Hlf Hcr Htok Hhdr Hcrs Hsingle Hparse Hne.
  pose proof (tokenize_shape _ _ _ _ Htok) as Hwf.
  destruct (rows_strings cells Hwf Hcrs Hsingle) as (rows & -> & Hgood).
  unfold parseCSV in Hparse.
  change (separator (Pure.optionsFor sc)) with (String sc "") in Hparse.
  change (stringDelimiter (Pure.optionsFor sc)) with DoubleQuote in Hparse.
  change (header (Pure.optionsFor sc)) with HeaderFirstRow in Hparse.
  rewrite Htok in Hparse.
  destruct (malformed (fmap (M := list) Some <$> rows)) eqn:Hmal; [done|].
  destruct rows as [|names valss].
  { simpl in Hparse. injection Hparse as <-. done. }
  rewrite fmap_cons in Hhdr, Hmal, Hparse.
  destruct Hhdr as (names' & Heq & Hnd & Hidx). simpl in Heq.
  apply (inj (fmap Some)) in Heq. subst names'.
  assert (Hlen : Forall (fun vals => length names = length vals) valss).
  { apply malformed_false in Hmal. rewrite Forall_fmap in Hmal.
    apply (Forall_impl _ _ _ Hmal). intros vals. simpl.
    rewrite !length_fmap. done. }
  simpl resolveHeaders in Hparse. simpl dataRows in Hparse.
  rewrite projectRows_plain in Hparse by done.
  injection Hparse as <-.
  destruct valss as [|vals valss]; [done|].
  exists (render (String sc "") dquote (names :: vals :: valss)). split.
  - by apply toCsv_plain.
  - unfold parseCSV.
    change (separator (Pure.optionsFor sc)) with (String sc "").
    change (stringDelimiter (Pure.optionsFor sc)) with DoubleQuote.
    change (header (Pure.optionsFor sc)) with HeaderFirstRow.
    rewrite tokenize_render by done.
    rewrite (fmap_cons (fmap Some) names), Hmal.
    simpl resolveHeaders. simpl dataRows.
    exact (projectRows_plain names (vals :: valss) 0 w Hnd Hlen).
Qed.

Lemma roundtrip_plain_example :
  exists text,
    toCsv (DataArray [ [("name", JString "Alan"); ("note", JString "a, b")];
                       [("name", JString "Bo");
                        ("note", JString Samples.escapedQuoteCell)] ])
          (Pure.toCsvOptionsFor ","%char) = Resolved text /\
    parseCSV (W := unit) ∅ text (Pure.optionsFor ","%char) tt
    = (Resolved [ [("name", JString "Alan"); ("note", JString "a, b")];
                  [("name", JString "Bo");
                   ("note", JString Samples.escapedQuoteCell)] ], tt).
Proof.
  apply (roundtrip_plain tt ","%char Samples.quotedText
           [ [Some "name"; Some "note"]; [Some "Alan"; Some "a, b"];
             [Some "Bo"; Some Samples.escapedQuoteCell] ]).
  - discriminate.
  - discriminate.
  - discriminate.
  - vm_compute. reflexivity.
  - exists ["name"; "note"]. split; [reflexivity|]. split.
    + apply (bool_decide_unpack _). vm_compute. exact I.
    + repeat constructor.
  - repeat constructor.
  - repeat constructor; discriminate.
  - vm_compute. reflexivity.
  - discriminate.
Defined.

(** C4 (counterexample): the text of a header line [a] and a data line
    holding one quoted empty cell parses to one record; [toCsv] writes that
    record as an empty line, which the parser skips, so the text written
    parses to no record at all. *)
Lemma roundtrip_counterexample :
  ~ Pure.roundTrips defaultOptions Samples.emptyCellText.
Proof.
  intros Hrt.
  destruct (Hrt [[("a", JString "")]]) as (text & recs' & Hto & Hparse & Hsame).
  { vm_compute. reflexivity. }
  vm_compute in Hto. injection Hto as <-.
  vm_compute in Hparse. injection Hparse as <-.
  inversion Hsame.
Qed.

(** ** Objects built by [Object.fromEntries] *)

Lemma fold_addEntry_some (es : list (string * jsval)) :
  forall acc,
    fold_left addEntry (Some <$> es) (Resolved acc)
    = Resolved (Pure.buildObj es acc).
Proof.
  induction es as [|[k v] es IH]; intros acc; [done|].
  rewrite fmap_cons. simpl. apply IH.
Qed.

Lemma elem_of_addKey (x k : string) (ks : list string) :
  x ∈ Pure.addKey ks k <-> x ∈ ks \/ x = k.
Proof.
  unfold Pure.addKey. destruct (decide (k ∈ ks)) as [Hin|Hnin].
  - split; [by left|]. intros [?| ->]; done.
  - rewrite elem_of_app, list_elem_of_singleton. done.
Qed.

Lemma addKey_NoDup (k : string) (ks : list string) :
  NoDup ks -> NoDup (Pure.addKey ks k).
Proof.
  intros Hnd. unfold Pure.addKey. destruct (decide (k ∈ ks)) as [Hin|Hnin]; [done|].
  apply NoDup_app. split; [done|]. split; [|apply NoDup_singleton].
  intros x Hx ->%list_elem_of_singleton. done.
Qed.

Lemma objSet_keys (k : string) (v : jsval) (o : jsobj) :
  (objSet k v o).*1 = Pure.addKey (o.*1) k.
Proof.
  induction o as [|[k' v'] o IH].
  - unfold Pure.addKey. case_decide as Hin; [|done].
    by apply elem_of_nil in Hin.
  - rewrite fmap_cons. simpl objSet. simpl fst.
    destruct (String.eqb_spec k' k) as [->|Hne].
    + rewrite fmap_cons. simpl fst. unfold Pure.addKey.
      case_decide as Hin; [done|]. exfalso. apply Hin. by left.
    + rewrite fmap_cons, IH. simpl fst. unfold Pure.addKey.
      case_decide as Hin; case_decide as Hin'; try done.
      * exfalso. apply Hin'. by right.
      * apply elem_of_cons in Hin' as [->|Hin']; done.
Qed.

Lemma buildObj_keys (es : list (string * jsval)) :
  forall acc,
    (Pure.buildObj es acc).*1 = fold_left Pure.addKey (es.*1) (acc.*1).
Proof.
  induction es as [|[k v] es IH]; intros acc; [done|].
  unfold Pure.buildObj in *. simpl. by rewrite IH, objSet_keys.
Qed.

Lemma fold_addKey_NoDup (l : list string) :
  forall ks, NoDup ks -> NoDup (fold_left Pure.addKey l ks).
Proof.
  induction l as [|k l IH]; intros ks Hnd; [done|].
  simpl. by apply IH, addKey_NoDup.
Qed.

Lemma elem_of_fold_addKey (x : string) (l : list string) :
  forall ks, x ∈ fold_left Pure.addKey l ks <-> x ∈ ks \/ x ∈ l.
Proof.
  induction l as [|k l IH]; intros ks; simpl.
  - split; [by left|]. intros [?|Hin]; [done|]. by apply elem_of_nil in Hin.
  - rewrite IH, elem_of_addKey, elem_of_cons. tauto.
Qed.

(** ** The order of the keys *)

Lemma insertKey_perm (n : N) (k : string) (l : list (N * string)) :
  insertKey n k l ≡ₚ (n, k) :: l.
Proof.
  induction l as [|[m k'] l IH]; [done|]. simpl.
  destruct (n <=? m)%N; [done|]. rewrite IH. apply Permutation_swap.
Qed.

Lemma indexKeys_perm (ks : list string) :
  snd <$> indexKeys ks ≡ₚ filter (fun k => ~ arrayIndex k = None) ks.
Proof.
  induction ks as [|k ks IH]; [done|].
  unfold indexKeys in *. simpl.
  destruct (arrayIndex k) as [n|] eqn:Hk.
  - rewrite filter_cons_True by (rewrite Hk; done).
    rewrite insertKey_perm. simpl. by rewrite IH.
  - rewrite filter_cons_False by (rewrite Hk; intros Hn; by apply Hn).
    apply IH.
Qed.

(** [Object.keys] lists every key once, whatever the order. *)
Lemma orderKeys_perm (ks : list string) : orderKeys ks ≡ₚ ks.
Proof.
  unfold orderKeys. rewrite indexKeys_perm.
  rewrite Permutation_app_comm. apply filter_app_complement.
Qed.

(** ** Records of strings *)

Lemma objGet_elem (k : string) (o : jsobj) :
  k ∈ o.*1 -> objGet k o ∈ o.*2.
Proof.
  induction o as [|[k' v'] o IH]; intros Hin.
  - by apply elem_of_nil in Hin.
  - rewrite fmap_cons in Hin. rewrite fmap_cons. simpl.
    destruct (String.eqb_spec k' k) as [->|Hne]; [by left|].
    right. apply IH. apply elem_of_cons in Hin as [->|Hin]; done.
Qed.

Lemma objGet_absent (k : string) (o : jsobj) :
  k ∉ o.*1 -> objGet k o = JUndefined.
Proof.
  induction o as [|[k' v'] o IH]; intros Hnin; [done|].
  rewrite fmap_cons in Hnin. apply not_elem_of_cons in Hnin as [Hne Hnin].
  simpl in *.
  assert (String.eqb k' k = false) as -> by (apply String.eqb_neq; congruence).
  by apply IH.
Qed.

Lemma objSet_values (P : jsval -> Prop) (k : string) (v : jsval) (o : jsobj) :
  Forall P (o.*2) -> P v -> Forall P ((objSet k v o).*2).
Proof.
  intros Hall Hv. induction o as [|[k' v'] o IH]; simpl.
  - by repeat constructor.
  - rewrite fmap_cons in Hall. inversion Hall as [|? ? Hv' Hrest]; subst.
    destruct (String.eqb k' k); rewrite fmap_cons; constructor; auto.
Qed.

Lemma buildObj_values (P : jsval -> Prop) (es : list (string * jsval)) :
  forall acc,
    Forall P (acc.*2) -> Forall P (es.*2) ->
    Forall P ((Pure.buildObj es acc).*2).
Proof.
  induction es as [|[k v] es IH]; intros acc Hacc Hes; [done|].
  rewrite fmap_cons in Hes. inversion Hes as [|? ? Hv Hrest]; subst.
  unfold Pure.buildObj in *. simpl. apply IH; [|done].
  by apply objSet_values.
Qed.

Lemma strings_id (l : list jsval) :
  Forall Pure.isString l -> JString <$> (Pure.strOfVal <$> l) = l.
Proof.
  induction l as [|v l IH]; intros Hall; [done|].
  inversion Hall as [|? ? [s ->] Hrest]; subst.
  rewrite !fmap_cons. simpl. by rewrite IH.
Qed.

Lemma values_are_strings (o : jsobj) :
  Forall Pure.isString (o.*2) -> Forall Pure.isString (values o).
Proof.
  intros Hall. unfold values, ownKeys. apply Forall_fmap, Forall_forall.
  intros k Hk. simpl. rewrite orderKeys_perm in Hk.
  rewrite Forall_forall in Hall. by apply Hall, objGet_elem.
Qed.

Lemma values_strings (o : jsobj) :
  Forall Pure.isString (o.*2) -> values o = JString <$> Pure.cellsOfRecord o.
Proof.
  intros Hall. unfold Pure.cellsOfRecord.
  by rewrite strings_id by (by apply values_are_strings).
Qed.

Lemma stringifyRows_strings (recs : list jsobj) :
  Forall (fun o => Forall Pure.isString (o.*2)) recs ->
  stringifyRows recs = Resolved (Pure.cellsOfRecord <$> recs).
Proof.
  induction recs as [|o recs IH]; intros Hall; [done|].
  inversion Hall as [|? ? Ho Hrest]; subst.
  rewrite fmap_cons. simpl.
  rewrite (values_strings o Ho) at 1. rewrite stringifyRow_strings. simpl.
  by rewrite IH.
Qed.

Lemma toCsv_strings (sc : ascii) (first : jsobj) (rest : list jsobj) :
  Forall (fun o => Forall Pure.isString (o.*2)) (first :: rest) ->
  toCsv (DataArray (first :: rest)) (Pure.toCsvOptionsFor sc)
  = Resolved (render (String sc "") dquote
                (keys first :: (Pure.cellsOfRecord <$> (first :: rest)))).
Proof.
  intros Hall. unfold toCsv. by rewrite stringifyRows_strings.
Qed.

Lemma objGet_zip (key : string) (f : string -> jsval) (ks : list string) :
  objGet key (zip ks (f <$> ks))
  = if decide (key ∈ ks) then f key else JUndefined.
Proof.
  induction ks as [|k ks IH].
  - case_decide as Hin; [by apply elem_of_nil in Hin|done].
  - rewrite fmap_cons. simpl. rewrite IH. clear IH.
    destruct (String.eqb_spec k key) as [->|Hne].
    + case_decide as Hin; [done|]. exfalso. apply Hin. by left.
    + case_decide as Hin; case_decide as Hin'; try done.
      * exfalso. apply Hin'. by right.
      * apply elem_of_cons in Hin' as [->|Hin']; done.
Qed.

(** A record of strings and the record read back from the line written
    for it agree on every key. *)
Lemma record_read_back (o : jsobj) (key : string) :
  Forall Pure.isString (o.*2) ->
  objGet key o = objGet key (Pure.recordOf (keys o) (Pure.cellsOfRecord o)).
Proof.
  intros Hall. unfold Pure.recordOf.
  rewrite <- (values_strings o Hall). unfold values, keys.
  rewrite objGet_zip. unfold ownKeys.
  case_decide as Hin; [done|].
  rewrite orderKeys_perm in Hin. by apply objGet_absent.
Qed.

(** ** Rows of strings, with a callbacks object without properties *)

Lemma projectRow_strings {W : Type} (rowIdx : nat) (names vals : list string)
    (w : W) :
  length names = length vals ->
  projectRow ∅ (Some (Some <$> names)) (Some <$> vals) rowIdx w
  = (Resolved (Pure.buildObj (Pure.recordOf names vals) []), w).
Proof.
  intros Hlen. unfold projectRow.
  pose proof (projectCells_plain rowIdx names [] vals w Hlen) as Hcells.
  change (length (@nil string)) with 0%nat in Hcells.
  change ([] ++ vals) with vals in Hcells. rewrite Hcells.
  unfold fromEntries. by rewrite fold_addEntry_some.
Qed.

Lemma projectRows_strings {W : Type} (names : list string)
    (valss : list (list string)) :
  forall (rowIdx : nat) (w : W),
    Forall (fun vals => length names = length vals) valss ->
    projectRows ∅ (Some (Some <$> names)) (fmap (M := list) Some <$> valss) rowIdx w
    = (Resolved ((fun vals => Pure.buildObj (Pure.recordOf names vals) []) <$> valss), w).
Proof.
  induction valss as [|vals valss IH]; intros rowIdx w Hall; [done|].
  inversion Hall as [|? ? Hlen Hrest]; subst.
  rewrite !fmap_cons, projectRows_step.
  rewrite projectRow_strings by done. by rewrite IH.
Qed.

(** ** The round trip on records *)

Lemma malformed_equal (hdr : list (option string)) (rows : grid) :
  Forall (fun r => length r = length hdr) rows ->
  malformed (hdr :: rows) = false.
Proof.
  intros Hall. unfold malformed. change ((hdr :: rows) !! 0) with (Some hdr).
  simpl default. simpl existsb. rewrite Nat.eqb_refl. simpl.
  induction rows as [|r rows IH]; [done|].
  inversion Hall as [|? ? Hr Hrest]; subst. simpl.
  apply Nat.eqb_eq in Hr. rewrite Hr. simpl. by apply IH.
Qed.

Lemma rows_wellFormed (cells : grid) :
  Forall Pure.wellFormedRow cells ->
  exists rows : list (list string),
    cells = (fmap (M := list) Some <$> rows) /\ Forall (fun r => r <> []) rows.
Proof.
  induction cells as [|r cells IH]; intros Hwf.
  - by exists [].
  - inversion Hwf as [|? ? (l & -> & Hl & _) Hwf']; subst.
    destruct (IH Hwf') as (rows & -> & Hne).
    exists (l :: rows). split; [done|]. by constructor.
Qed.

Lemma cellsOfRecord_length (o : jsobj) :
  length (Pure.cellsOfRecord o) = length (keys o).
Proof.
  unfold Pure.cellsOfRecord, values, keys. by rewrite !length_fmap.
Qed.

(** The cells written for a clean record of strings make a good row. *)
Lemma cellsOfRecord_good (o : jsobj) :
  keys o <> [] -> Forall Pure.isString (o.*2) -> Pure.cleanRecord o ->
  Pure.goodRow (Pure.cellsOfRecord o).
Proof.
  intros Hk Hstr (_ & Hv & _ & Hp). split; [|split].
  - intros Hnil. apply Hk. apply length_zero_iff_nil.
    by rewrite <- cellsOfRecord_length, Hnil.
  - intros Hone. apply Hv. by rewrite (values_strings o Hstr), Hone.
  - rewrite (values_strings o Hstr), Forall_fmap in Hp.
    apply (Forall_impl _ _ _ Hp). intros s Hs. by apply (Hs s).
Qed.

(** ** The keys of a projected record *)

Lemma projectCells_headers {W : Type} (callbacks : gmap string (@callback W))
    (line : list (option string)) (rowIdx : nat) (hs : list (option string)) :
  forall colIdx w es w',
    projectCells callbacks hs colIdx line rowIdx w = (Resolved es, w') ->
    (fun e : option (string * jsval) => fst <$> e) <$> es = hs.
Proof.
  induction hs as [|[name|] hs IH]; intros colIdx w es w' Hp; simpl in Hp.
  - by injection Hp as <- _.
  - destruct (projectCell callbacks line rowIdx name colIdx w) as [[v|e] w1];
      [|done].
    destruct (projectCells callbacks hs (S colIdx) line rowIdx w1)
      as [[es1|e] w2] eqn:E; [|done].
    injection Hp as <- _. rewrite fmap_cons. simpl. f_equal. by apply (IH _ _ _ _ E).
  - destruct (projectCells callbacks hs (S colIdx) line rowIdx w)
      as [[es1|e] w2] eqn:E; [|done].
    injection Hp as <- _. rewrite fmap_cons. simpl. f_equal. by apply (IH _ _ _ _ E).
Qed.

Lemma entries_of_names (es : list (option (string * jsval))) :
  forall names : list string,
    (fun e : option (string * jsval) => fst <$> e) <$> es = Some <$> names ->
    exists es', es = Some <$> es' /\ es'.*1 = names.
Proof.
  induction es as [|x es IH]; intros [|n names] Heq; try done.
  - by exists [].
  - rewrite !fmap_cons in Heq. injection Heq as Hx Hrest.
    destruct (IH _ Hrest) as (es' & -> & <-).
    destruct x as [[k v]|]; [|done]. simpl in Hx. injection Hx as ->.
    by exists ((n, v) :: es').
Qed.

(** Every header name is a key of the record of a row. *)
Lemma projectRow_keys {W : Type} (callbacks : gmap string (@callback W))
    (names : list string) (line : list (option string)) (rowIdx : nat)
    (w w' : W) (o : jsobj) (n : string) :
  projectRow callbacks (Some (Some <$> names)) line rowIdx w = (Resolved o, w') ->
  n ∈ names -> n ∈ keys o.
Proof.
  intros Hrow Hn. unfold projectRow in Hrow.
  destruct (projectCells callbacks (Some <$> names) 0 line rowIdx w)
    as [[es|e] w1] eqn:E; [|done].
  injection Hrow as Hfold _.
  destruct (entries_of_names es names (projectCells_headers _ _ _ _ _ _ _ _ E))
    as (es' & -> & <-).
  unfold fromEntries in Hfold. rewrite fold_addEntry_some in Hfold.
  injection Hfold as <-. unfold keys, ownKeys.
  rewrite orderKeys_perm, buildObj_keys. apply elem_of_fold_addKey. by right.
Qed.

Lemma omap_id_Some {A : Type} (l : list A) : omap id (Some <$> l) = l.
Proof.
  induction l as [|x l IH]; [done|]. rewrite fmap_cons.
  change (omap id (Some x :: (Some <$> l))) with (x :: omap id (Some <$> l)).
  by rewrite IH.
Qed.

Section RecordsRoundTrip.
Context {W : Type} (w : W) (sc : ascii).
Hypothesis sc_not_quote : sc <> dquote.
Hypothesis sc_not_LF : sc <> LF.
Hypothesis sc_not_CR : sc <> CR.

(** Records of strings that share their key order [K] are read back from
    the text written for them as the records of their cells under [K]. *)
Lemma parseCSV_written (K : list string) (recs : list jsobj) :
  NoDup K -> K <> [] -> recs <> [] ->
  Forall (fun o => keys o = K /\ Forall Pure.isString (o.*2) /\ Pure.cleanRecord o)
         recs ->
  parseCSV (W := W) ∅
    (render (String sc "") dquote (K :: (Pure.cellsOfRecord <$> recs)))
    (Pure.optionsFor sc) w
  = (Resolved (Pure.recordOf K <$> (Pure.cellsOfRecord <$> recs)), w).
Proof.
  intros Hnd HK Hne Hall.
  assert (Hgood : Forall Pure.goodRow (K :: (Pure.cellsOfRecord <$> recs))).
  { constructor.
    - destruct recs as [|o recs]; [done|].
      inversion Hall as [|? ? (Hko & _ & (Hk1 & _ & Hkp & _)) _]; subst.
      split; [done|]. split; [done|]. apply (Forall_impl _ _ _ Hkp).
      by intros s [? ?].
    - apply Forall_fmap, (Forall_impl _ _ _ Hall).
      intros o (Hko & Hstr & Hclean). simpl.
      apply cellsOfRecord_good; [by rewrite Hko|done|done]. }
  assert (Hlen : Forall (fun vals => length K = length vals)
                   (Pure.cellsOfRecord <$> recs)).
  { apply Forall_fmap, (Forall_impl _ _ _ Hall).
    intros o (Hko & _ & _). simpl. by rewrite cellsOfRecord_length, Hko. }
  unfold parseCSV.
  change (separator (Pure.optionsFor sc)) with (String sc "").
  change (stringDelimiter (Pure.optionsFor sc)) with DoubleQuote.
  change (header (Pure.optionsFor sc)) with HeaderFirstRow.
  rewrite tokenize_render by done.
  rewrite (fmap_cons (fmap Some) K), malformed_equal.
  - simpl resolveHeaders. simpl dataRows.
    exact (projectRows_plain K (Pure.cellsOfRecord <$> recs) 0 w Hnd Hlen).
  - apply Forall_fmap, (Forall_impl _ _ _ Hlen). intros vals Hv. simpl.
    by rewrite !length_fmap.
Qed.

Lemma sameRecords_written (K : list string) (recs : list jsobj) :
  Forall (fun o => keys o = K /\ Forall Pure.isString (o.*2)) recs ->
  Pure.sameRecords recs (Pure.recordOf K <$> (Pure.cellsOfRecord <$> recs)).
Proof.
  unfold Pure.sameRecords.
  induction recs as [|o recs IH]; intros Hall; [by constructor|].
  inversion Hall as [|? ? [Hko Hstr] Hrest]; subst.
  rewrite !fmap_cons. constructor; [|by apply IH].
  intros key. by apply record_read_back.
Qed.

(** The records [parseCSV] builds from a grid of strings. *)
Lemma built_records (names : list string) (valss : list (list string)) :
  names <> [] ->
  Forall (fun vals => length names = length vals) valss ->
  let K := orderKeys (fold_left Pure.addKey names []) in
  NoDup K /\ K <> [] /\
  Forall (fun o => keys o = K /\ Forall Pure.isString (o.*2))
    ((fun vals => Pure.buildObj (Pure.recordOf names vals) []) <$> valss).
Proof.
  intros Hnames Hlen K. split; [|split].
  - unfold K. rewrite orderKeys_perm. apply fold_addKey_NoDup. constructor.
  - intros HK. destruct names as [|n names]; [done|].
    assert (Hin : n ∈ K).
    { unfold K. rewrite orderKeys_perm. apply elem_of_fold_addKey.
      right. by left. }
    rewrite HK in Hin. by apply elem_of_nil in Hin.
  - apply Forall_fmap, (Forall_impl _ _ _ Hlen). intros vals Hv. simpl. split.
    + unfold keys, ownKeys. by rewrite buildObj_keys, recordOf_keys.
    + apply buildObj_values; [constructor|].
      rewrite recordOf_values by done. apply Forall_fmap, Forall_forall.
      intros s _. by exists s.
Qed.

End RecordsRoundTrip.

Section WrittenRecords.
Context (sc : ascii).
Hypothesis sc_not_quote : sc <> dquote.
Hypothesis sc_not_LF : sc <> LF.
Hypothesis sc_not_CR : sc <> CR.

(** The header names of the text written for records that share their key
    order [K] are [K]. *)
Lemma headerNames_written (K : list string) (recs : list jsobj) :
  K <> [] -> recs <> [] ->
  Forall (fun o => keys o = K /\ Forall Pure.isString (o.*2) /\ Pure.cleanRecord o)
         recs ->
  Pure.headerNames (Pure.optionsFor sc)
    (render (String sc "") dquote (K :: (Pure.cellsOfRecord <$> recs)))
  = K.
Proof.
  intros HK Hne Hall.
  assert (Hgood : Forall Pure.goodRow (K :: (Pure.cellsOfRecord <$> recs))).
  { constructor.
    - destruct recs as [|o recs]; [done|].
      inversion Hall as [|? ? (Hko & _ & (Hk1 & _ & Hkp & _)) _]; subst.
      split; [done|]. split; [done|]. apply (Forall_impl _ _ _ Hkp).
      by intros s [? ?].
    - apply Forall_fmap, (Forall_impl _ _ _ Hall).
      intros o (Hko & Hstr & Hclean). simpl.
      apply cellsOfRecord_good; [by rewrite Hko|done|done]. }
  unfold Pure.headerNames.
  change (separator (Pure.optionsFor sc)) with (String sc "").
  change (stringDelimiter (Pure.optionsFor sc)) with DoubleQuote.
  change (header (Pure.optionsFor sc)) with HeaderFirstRow.
  rewrite tokenize_render by done.
  rewrite (fmap_cons (fmap Some) K). simpl resolveHeaders.
  apply omap_id_Some.
Qed.

End WrittenRecords.

(** C4 (amended): with a one-character separator other than the double
    quote and the line breaks, the first row as header, the double quote
    as delimiter and the default callbacks [{}], take a text that parses
    to at least one record, where no key is a property name of
    [Object.prototype], no key and no value of a record holds a line-break
    character, the keys of a record are not the single empty name and its
    values are not a single empty string.  Then [toCsv] of the records
    resolves, and its text parses to as many records, which agree with the
    original ones on every key. *)
Theorem roundtrip_records {W : Type} (w : W) (sc : ascii) (csv : string)
    (recs : list jsobj) :
  sc <> dquote -> sc <> LF -> sc <> CR ->
  parseCSV (W := W) emptyObject csv (Pure.optionsFor sc) w = (Resolved recs, w) ->
  recs <> [] ->
  Forall Pure.cleanRecord recs ->
  Forall (fun o => Forall Pure.ownName (keys o)) recs ->
  exists text recs',
    toCsv (DataArray recs) (Pure.toCsvOptionsFor sc) = Resolved text /\
    parseCSV (W := W) emptyObject text (Pure.optionsFor sc) w = (Resolved recs', w) /\
    Pure.sameRecords recs recs'.
Proof.
  intros Hq Hlf Hcr Hparse Hne Hclean Hown.
  unfold parseCSV in Hparse.
  change (separator (Pure.optionsFor sc)) with (String sc "") in Hparse.
  change (stringDelimiter (Pure.optionsFor sc)) with DoubleQuote in Hparse.
  change (header (Pure.optionsFor sc)) with HeaderFirstRow in Hparse.
  destruct (tokenize (String sc "") DoubleQuote csv) as [cells|e] eqn:Htok;
    [|done].
  destruct (malformed cells) eqn:Hmal; [done|].
  destruct (rows_wellFormed cells (tokenize_shape _ _ _ _ Htok))
    as (rows & -> & Hrows).
  destruct rows as [|names valss].
  { simpl in Hparse. injection Hparse as <-. done. }
  inversion Hrows as [|? ? Hnames _]; subst.
  rewrite fmap_cons in Hmal, Hparse.
  assert (Hlen : Forall (fun vals => length names = length vals) valss).
  { apply malformed_false in Hmal. rewrite Forall_fmap in Hmal.
    apply (Forall_impl _ _ _ Hmal). intros vals. simpl.
    rewrite !length_fmap. done. }
  simpl resolveHeaders in Hparse. simpl dataRows in Hparse.
  assert (Hnames_own : Forall Pure.ownName names).
  { destruct valss as [|vals valss].
    { simpl in Hparse. injection Hparse as <-. done. }
    rewrite fmap_cons, projectRows_step in Hparse.
    destruct (projectRow emptyObject (Some (Some <$> names)) (Some <$> vals) 0 w)
      as [[o|e] w1] eqn:Hrow; [|done].
    destruct (projectRows emptyObject (Some (Some <$> names))
                (fmap (M := list) Some <$> valss) 1 w1) as [[os|e] w2]; [|done].
    injection Hparse as <- _.
    inversion Hown as [|? ? Ho _]; subst.
    apply Forall_forall. intros n Hn. rewrite Forall_forall in Ho.
    apply Ho. by apply (projectRow_keys _ _ _ _ _ _ _ _ Hrow). }
  rewrite projectRows_unselected in Hparse.
  2: apply emptyObject_index.
  2: { intros hs n [= <-] Hin. apply emptyObject_own.
       rewrite Forall_forall in Hnames_own. apply Hnames_own.
       apply list_elem_of_fmap in Hin as (n' & [= ->] & Hin). done. }
  rewrite projectRows_strings in Hparse by done.
  injection Hparse as <-.
  destruct (built_records names valss Hnames Hlen) as (Hnd & HK & Hall).
  set (K := orderKeys (fold_left Pure.addKey names [])) in *.
  set (recs := (fun vals => Pure.buildObj (Pure.recordOf names vals) [])
                 <$> valss) in *.
  assert (Hfull : Forall (fun o => keys o = K /\ Forall Pure.isString (o.*2)
                                   /\ Pure.cleanRecord o) recs).
  { apply Forall_forall. intros o Ho.
    rewrite Forall_forall in Hall. rewrite Forall_forall in Hclean.
    destruct (Hall o Ho) as [Hko Hstr]. by (split; [|split]; [| |apply Hclean]). }
  destruct recs as [|first rest] eqn:Hrecs; [done|].
  assert (Hfirst : keys first = K) by (by inversion Hall as [|? ? [? ?] ?]).
  exists (render (String sc "") dquote
            (keys first :: (Pure.cellsOfRecord <$> (first :: rest)))),
         (Pure.recordOf K <$> (Pure.cellsOfRecord <$> (first :: rest))).
  split; [|split].
  - apply toCsv_strings, (Forall_impl _ _ _ Hall). by intros o [_ ?].
  - rewrite Hfirst, parseCSV_emptyObject.
    + by apply parseCSV_written.
    + rewrite headerNames_written by done.
      rewrite <- Hfirst. by inversion Hown.
  - by apply sameRecords_written.
Qed.

(** A way to check that a record is clean: from its keys and its cells. *)
Lemma cleanRecord_intro (o : jsobj) (ks vs : list string) :
  keys o = ks -> values o = JString <$> vs ->
  ks <> [""] -> vs <> [""] ->
  Forall Pure.printable ks -> Forall Pure.printable vs ->
  Pure.cleanRecord o.
Proof.
  intros Hk Hv Hks Hvs Hpk Hpv. subst ks. split; [done|]. rewrite Hv.
  split; [|split; [done|]].
  - intros Hone. apply Hvs.
    destruct vs as [|v [|v' vs]]; try discriminate Hone.
    by injection Hone as ->.
  - apply Forall_fmap, (Forall_impl _ _ _ Hpv). intros s Hs s' [= <-]. done.
Qed.

Lemma roundtrip_records_witness :
  exists text recs',
    toCsv (DataArray [ [("1", JString "x"); ("b", JString "a, b")];
                       [("1", JString Samples.escapedQuoteCell);
                        ("b", JString "")] ])
          (Pure.toCsvOptionsFor ","%char) = Resolved text /\
    parseCSV (W := unit) emptyObject text (Pure.optionsFor ","%char) tt
    = (Resolved recs', tt) /\
    Pure.sameRecords
      [ [("1", JString "x"); ("b", JString "a, b")];
        [("1", JString Samples.escapedQuoteCell); ("b", JString "")] ]
      recs'.
Proof.
  apply (roundtrip_records tt ","%char Samples.reorderedText).
  - discriminate.
  - discriminate.
  - discriminate.
  - vm_compute. reflexivity.
  - discriminate.
  - repeat (apply Forall_cons; split); [| |constructor].
    + apply (cleanRecord_intro _ ["1"; "b"] ["x"; "a, b"]);
        [vm_compute; reflexivity | vm_compute; reflexivity
        | discriminate | discriminate
        | repeat constructor | repeat constructor].
    + apply (cleanRecord_intro _ ["1"; "b"] [Samples.escapedQuoteCell; ""]);
        [vm_compute; reflexivity | vm_compute; reflexivity
        | discriminate | discriminate
        | repeat constructor | repeat constructor].
  - apply Forall_cons; split; [|apply Forall_cons; split; [|constructor]];
      apply ownNames_intro; vm_compute; reflexivity.
Defined.

(** ** More on the cell reference calculator *)

Lemma columnLabel_samples :
  Pure.columnLabel <$> [1; 26; 27; 52; 53; 676; 677; 702; 703]%Z
  = ["A"; "Z"; "AA"; "AZ"; "BA"; "YZ"; "ZA"; "ZZ"; "AAA"].
Proof. vm_compute. reflexivity. Qed.

(** X1: for the column indexes 1 to 676 (A to YZ) [numberToCharacters]
    returns the spreadsheet column label; 677 is the first index where it
    does not (AA for ZA). *)
Theorem numberToCharacters_first_676 :
  (forall n : Z, (1 <= n <= 676)%Z ->
     CellRef.numberToCharacters n = Some (Pure.columnLabel n))
  /\ CellRef.numberToCharacters 677 = Some "AA"
  /\ Pure.columnLabel 677 = "ZA".
Proof.
  split; [|split; vm_compute; reflexivity].
  intros n Hn.
  assert (Hall : forallb
            (fun k => match CellRef.numberToCharacters (Z.of_nat k) with
                      | Some s => String.eqb s (Pure.columnLabel (Z.of_nat k))
                      | None => false
                      end) (seq 1 676) = true) by (vm_compute; reflexivity).
  rewrite forallb_forall in Hall.
  specialize (Hall (Z.to_nat n)). rewrite Z2Nat.id in Hall by lia.
  destruct (CellRef.numberToCharacters n) as [s|].
  - f_equal. apply String.eqb_eq. apply Hall. apply in_seq. lia.
  - discriminate Hall. apply in_seq. lia.
Qed.

Lemma numberToCharacters_first_676_witness :
  CellRef.numberToCharacters 28 = Some (Pure.columnLabel 28).
Proof.
  apply (proj1 numberToCharacters_first_676 28%Z). lia.
Defined.

(** X2: [numberToCharacters] returns a string for every integer: its
    [while] loop ends, as each round divides [num] by 26. *)
Theorem numberToCharacters_returns (num : Z) :
  exists s, CellRef.numberToCharacters num = Some s.
Proof. exact (numberToCharacters_total num). Qed.

(** ** The parser of the first version *)

Lemma projectCells_no_callbacks {W : Type} (line : list (option string))
    (rowIdx : nat) (hs : list (option string)) :
  forall (colIdx : nat) (w : W),
    projectCells ∅ hs colIdx line rowIdx w
    = (Resolved (Legacy.entriesOf hs colIdx line), w).
Proof.
  induction hs as [|[name|] hs IH]; intros colIdx w; [done| |].
  - simpl. unfold projectCell, callback. rewrite !lookup_empty.
    by rewrite IH.
  - simpl. by rewrite IH.
Qed.

Lemma projectRows_no_callbacks {W : Type} (headers : option (list (option string)))
    (rows : grid) :
  forall (rowIdx : nat) (w : W),
    projectRows ∅ headers rows rowIdx w = (Legacy.recordsOf headers rows, w).
Proof.
  induction rows as [|line rows IH]; intros rowIdx w; [done|].
  rewrite projectRows_step. unfold projectRow. simpl Legacy.recordsOf.
  destruct headers as [hs|]; [|done].
  rewrite projectCells_no_callbacks.
  destruct (fromEntries (Legacy.entriesOf hs 0 line)) as [o|e]; [|done].
  rewrite IH. simpl. by destruct (Legacy.recordsOf (Some hs) rows).
Qed.

(** X3: called with the default callbacks [{}] on a text none of whose
    header names is a property name of [Object.prototype], the parser with
    callbacks settles as the parser of the first version does, for every
    option, and leaves the caller's state alone. *)
Theorem parseCSV_without_callbacks {W : Type} (csv : string)
    (options : CsvParserOptions) (w : W) :
  Forall Pure.ownName (Pure.headerNames options csv) ->
  parseCSV (W := W) emptyObject csv options w = (Legacy.parseCSV csv options, w).
Proof.
  intros Hown. rewrite parseCSV_emptyObject by done.
  unfold parseCSV, Legacy.parseCSV.
  destruct (tokenize (separator options) (stringDelimiter options) csv)
    as [cells|e]; [|done].
  destruct (malformed cells); [done|].
  apply projectRows_no_callbacks.
Qed.

Lemma parseCSV_without_callbacks_witness :
  parseCSV (W := unit) emptyObject Samples.quotedText defaultOptions tt
  = (Legacy.parseCSV Samples.quotedText defaultOptions, tt).
Proof.
  apply (parseCSV_without_callbacks Samples.quotedText defaultOptions tt).
  apply ownNames_intro. vm_compute. reflexivity.
Defined.

(** ** More on the tokenizer *)

(** X4: every row of a grid the tokenizer resolves to has at least one
    cell, has no hole and has no newline in a cell. *)
Theorem tokenize_rows_invariant (sep : string) (d : StringDelimiter)
    (csv : string) (cells : grid) :
  tokenize sep d csv = Resolved cells ->
  Forall (fun r : list (option string) =>
            exists l : list string,
              r = Some <$> l /\ l <> [] /\
              Forall (fun s => Pure.hasChar LF s = false) l) cells.
Proof. intros Htok. exact (tokenize_shape sep d csv cells Htok). Qed.

Lemma tokenize_rows_invariant_witness :
  Forall (fun r : list (option string) =>
            exists l : list string,
              r = Some <$> l /\ l <> [] /\
              Forall (fun s => Pure.hasChar LF s = false) l)
         [[Some "a"; Some "b,c"; Some "d"]].
Proof.
  apply (tokenize_rows_invariant "," DoubleQuote Samples.quotedSeparatorLine).
  vm_compute. reflexivity.
Defined.

(** X5: when no empty line comes before a non-empty line, the tokenizer
    resolves to one row per non-empty line, in the order of the lines; the
    empty lines at the end give no row. *)
Theorem tokenize_trailing_empty_lines (sep : string) (d : StringDelimiter)
    (csv : string) (lines empties : list string) :
  splitLines csv = lines ++ empties ->
  Forall (fun l => l <> "") lines ->
  Forall (fun l => l = "") empties ->
  tokenize sep d csv
  = Resolved ((fun l => Some <$> Pure.lexRow sep (delimiterChar d) l [] "" false)
                <$> lines).
Proof.
  intros Hsplit Hne Hem. unfold tokenize. rewrite Hsplit.
  by apply tokenizeLines_trailing_empty.
Qed.

Lemma tokenize_trailing_empty_lines_witness :
  tokenize "," DoubleQuote ("a,b" +:+ String LF ("1,2" +:+ String LF (String LF "")))
  = Resolved ((fun l => Some <$> Pure.lexRow "," dquote l [] "" false)
                <$> ["a,b"; "1,2"]).
Proof.
  apply (tokenize_trailing_empty_lines "," DoubleQuote _ ["a,b"; "1,2"] [""; ""]).
  - vm_compute. reflexivity.
  - repeat constructor; discriminate.
  - repeat constructor.
Defined.

(** The scanner throws nothing but the [TypeError] of a write to an
    [undefined] row. *)
Lemma scanLine_error (sep : string) (d : ascii) (n : nat) :
  forall line i (cells : grid) currentCell inString e,
    (String.length line <= n)%nat ->
    scanLine sep d line i cells currentCell inString = Rejected e ->
    e = TypeError.
Proof.
  induction n as [|n IH]; intros line i cells cc b e Hlen Hscan.
  - destruct line; simpl in Hlen; [|lia]. discriminate Hscan.
  - destruct line as [|c rest]; [discriminate Hscan|].
    simpl in Hlen. rewrite scanLine_step in Hscan.
    unfold appendChar, incrementCell in Hscan.
    assert (Hrest : forall cells' cc' b',
              scanLine sep d rest i cells' cc' b' = Rejected e -> e = TypeError).
    { intros cells' cc' b'. apply IH. lia. }
    destruct (cells !! i) as [result|]; unfold obind in Hscan.
    + destruct (String.eqb (String c "") sep).
      * destruct b; by apply Hrest in Hscan.
      * destruct (Ascii.eqb c d); [|by apply Hrest in Hscan].
        destruct rest as [|next rest']; [by apply Hrest in Hscan|].
        destruct (b && Ascii.eqb next d); [|by apply Hrest in Hscan].
        apply IH in Hscan; [done|]. simpl in Hlen. lia.
    + destruct (String.eqb (String c "") sep).
      * destruct b; congruence.
      * destruct (Ascii.eqb c d); [|congruence].
        destruct rest as [|next rest']; [by apply Hrest in Hscan|].
        destruct (b && Ascii.eqb next d); [congruence|].
        by apply Hrest in Hscan.
Qed.

Lemma tokenizeLines_error (sep : string) (d : ascii) (lines : list string) :
  forall i (cells : grid) e,
    tokenizeLines sep d lines i cells = Rejected e -> e = TypeError.
Proof.
  induction lines as [|l lines IH]; intros i cells e Htok; [discriminate Htok|].
  rewrite tokenizeLines_step in Htok.
  destruct (String.eqb l ""); [by apply IH in Htok|].
  destruct (scanLine sep d l i (cells ++ [[Some ""]]) 0 false)
    as [cells1|e1] eqn:Hscan; simpl in Htok.
  - by apply IH in Htok.
  - injection Htok as <-. by apply (scanLine_error _ _ _ _ _ _ _ _ _ (le_n _) Hscan).
Qed.

Lemma fold_addEntry_error (es : list (option (string * jsval))) :
  forall acc e,
    fold_left addEntry es (Resolved acc) = Rejected e -> e = TypeError.
Proof.
  induction es as [|x es IH]; intros acc e Hfold; [discriminate Hfold|].
  simpl in Hfold. destruct x as [[k v]|].
  - by apply IH in Hfold.
  - rewrite fold_addEntry_rejected in Hfold. congruence.
Qed.

Section PropertiesThatThrowTypeErrors.
Context {W : Type} (callbacks : gmap string (@callback W)).
Hypothesis type_errors :
  map_Forall (fun _ f => Pure.throwsTypeErrorOnly f) callbacks.

Lemma projectCell_error (line : list (option string)) (rowIdx : nat)
    (colName : string) (colIdx : nat) (w w' : W) (e : error) :
  projectCell callbacks line rowIdx colName colIdx w = (Rejected e, w') ->
  e = TypeError.
Proof.
  unfold projectCell, callback in *.
  destruct (callbacks !! colName) as [f|] eqn:Hf.
  - apply (type_errors _ _ Hf).
  - destruct (callbacks !! (pretty colIdx : string)) as [g|] eqn:Hg.
    + apply (type_errors _ _ Hg).
    + discriminate.
Qed.

Lemma projectCells_error (line : list (option string)) (rowIdx : nat)
    (hs : list (option string)) :
  forall colIdx w e w',
    projectCells callbacks hs colIdx line rowIdx w = (Rejected e, w') ->
    e = TypeError.
Proof.
  induction hs as [|[name|] hs IH]; intros colIdx w e w' Hp; simpl in Hp.
  - discriminate.
  - destruct (projectCell callbacks line rowIdx name colIdx w)
      as [[v|e1] w1] eqn:Hcell.
    + destruct (projectCells callbacks hs (S colIdx) line rowIdx w1)
        as [[es|e2] w2] eqn:E; [discriminate|].
      injection Hp as <- _. by apply (IH _ _ _ _ E).
    + injection Hp as <- _. by apply (projectCell_error _ _ _ _ _ _ _ Hcell).
  - destruct (projectCells callbacks hs (S colIdx) line rowIdx w)
      as [[es|e2] w2] eqn:E; [discriminate|].
    injection Hp as <- _. by apply (IH _ _ _ _ E).
Qed.

Lemma projectRows_error (headers : option (list (option string))) (rows : grid) :
  forall rowIdx w e w',
    projectRows callbacks headers rows rowIdx w = (Rejected e, w') ->
    e = TypeError.
Proof.
  induction rows as [|line rows IH]; intros rowIdx w e w' Hp; [discriminate Hp|].
  rewrite projectRows_step in Hp. unfold projectRow in Hp.
  destruct headers as [hs|]; [|congruence].
  destruct (projectCells callbacks hs 0 line rowIdx w) as [[es|e1] w1] eqn:Hes.
  - unfold fromEntries in Hp.
    destruct (fold_left addEntry es (Resolved [])) as [o|e1] eqn:Hfold.
    + destruct (projectRows callbacks (Some hs) rows (S rowIdx) w1)
        as [[os|e2] w2] eqn:Hrest; [discriminate Hp|].
      injection Hp as <- <-. by apply IH in Hrest.
    + injection Hp as <- <-. by apply fold_addEntry_error in Hfold.
  - injection Hp as <- _. by apply projectCells_error in Hes.
Qed.

End PropertiesThatThrowTypeErrors.

(** What the default [{}] inherits returns or throws a [TypeError]. *)
Lemma emptyObject_type_errors {W : Type} :
  map_Forall (fun _ f => Pure.throwsTypeErrorOnly f) (emptyObject (W := W)).
Proof.
  assert (Hall : Forall (fun p => Pure.throwsTypeErrorOnly (W := W) p.2)
                   objectPrototype).
  { unfold objectPrototype.
    repeat (apply Forall_cons; split;
            [intros v m w e w' Hcall; unfold builtin in Hcall; simpl in Hcall;
             congruence|]).
    constructor. }
  intros name f Hf. apply elem_of_list_to_map_2 in Hf.
  rewrite Forall_forall in Hall. apply (Hall _ Hf).
Qed.

(** X6: when every property of the callbacks object returns or throws a
    [TypeError] when it is called (as callbacks that never throw do, and
    as the properties the default [{}] inherits do), [parseCSV] rejects
    with nothing but a [TypeError] (of the scanner, of
    [Object.fromEntries] or of such a call) and the syntax error Malformed
    CSV. *)
Theorem parseCSV_errors {W : Type} (callbacks : gmap string (@callback W))
    (csv : string) (options : CsvParserOptions) (w w' : W) (e : error) :
  map_Forall (fun _ f => Pure.throwsTypeErrorOnly f) callbacks ->
  parseCSV callbacks csv options w = (Rejected e, w') ->
  e = TypeError \/ e = SyntaxError "Malformed CSV".
Proof.
  intros Hcb Hparse. unfold parseCSV, tokenize in Hparse.
  destruct (tokenizeLines _ _ _ _ _) as [cells|e1] eqn:Htok.
  - destruct (malformed cells).
    + right. congruence.
    + left. by apply (projectRows_error callbacks Hcb) in Hparse.
  - left. injection Hparse as <- <-. by apply tokenizeLines_error in Htok.
Qed.

Lemma parseCSV_errors_witness :
  TypeError = TypeError \/ TypeError = SyntaxError "Malformed CSV".
Proof.
  apply (parseCSV_errors (W := unit) emptyObject Samples.protoNameText
           defaultOptions tt tt).
  - apply emptyObject_type_errors.
  - vm_compute. reflexivity.
Defined.

Section SelectedPropertiesReturn.
Context {W : Type} (callbacks : gmap string (@callback W)).

Lemma projectCells_returns (line : list (option string)) (rowIdx : nat)
    (hs : list (option string)) :
  forall colIdx w,
    (forall n f, Some n ∈ hs -> callbacks !! n = Some f -> Pure.neverThrows f) ->
    (forall j f, (j < length hs)%nat ->
                 callbacks !! (pretty (colIdx + j)%nat : string) = Some f ->
                 Pure.neverThrows f) ->
    exists es w',
      projectCells callbacks hs colIdx line rowIdx w = (Resolved es, w') /\
      (Forall is_Some hs -> Forall is_Some es).
Proof.
  induction hs as [|h hs IH]; intros colIdx w Hname Hidx.
  - exists [], w. by split.
  - assert (Hrest : forall w1, exists es w',
              projectCells callbacks hs (S colIdx) line rowIdx w1 = (Resolved es, w') /\
              (Forall is_Some hs -> Forall is_Some es)).
    { intros w1. apply IH.
      - intros n f Hin. apply Hname. by right.
      - intros j f Hj Hf. apply (Hidx (S j)); [simpl; lia|].
        by replace (colIdx + S j)%nat with (S colIdx + j)%nat by lia. }
    destruct h as [name|]; simpl.
    + assert (Hcell : exists v w1,
                projectCell callbacks line rowIdx name colIdx w = (Resolved v, w1)).
      { unfold projectCell, callback in *.
        destruct (callbacks !! name) as [f|] eqn:Hf.
        - apply (Hname name f); [by left|done].
        - destruct (callbacks !! (pretty colIdx : string)) as [g|] eqn:Hg.
          + apply (Hidx 0%nat g); [simpl; lia|by rewrite Nat.add_0_r].
          + by eexists _, _. }
      destruct Hcell as (v & w1 & ->).
      destruct (Hrest w1) as (es & w2 & -> & Hes).
      eexists _, _. split; [done|]. intros Hall.
      inversion Hall; subst. constructor; [by eexists|by apply Hes].
    + destruct (Hrest w) as (es & w2 & -> & Hes).
      eexists _, _. split; [done|]. intros Hall.
      inversion Hall as [|? ? [? ?] ?]; subst. done.
Qed.

Lemma projectRows_returns (hs : list (option string)) (rows : grid) :
  Forall is_Some hs ->
  (forall key f, Pure.selects hs key -> callbacks !! key = Some f ->
                 Pure.neverThrows f) ->
  forall rowIdx w,
    exists recs w',
      projectRows callbacks (Some hs) rows rowIdx w = (Resolved recs, w') /\
      length recs = length rows.
Proof.
  intros Hhs Hsel. induction rows as [|line rows IH]; intros rowIdx w.
  - exists [], w. by split.
  - rewrite projectRows_step. unfold projectRow.
    destruct (projectCells_returns line rowIdx hs 0 w) as (es & w1 & -> & Hes).
    { intros n f Hin. apply Hsel. by left. }
    { intros j f Hj. apply Hsel. right. by exists j. }
    specialize (Hes Hhs).
    assert (Hsome : exists es', es = Some <$> es').
    { clear -Hes. induction es as [|x es IH]; [by exists []|].
      inversion Hes as [|? ? [y ->] Hrest]; subst.
      destruct (IH Hrest) as [es' ->]. by exists (y :: es'). }
    destruct Hsome as [es' ->]. unfold fromEntries. rewrite fold_addEntry_some.
    destruct (IH (S rowIdx) w1) as (recs & w2 & -> & Hlen).
    eexists _, _. split; [done|]. simpl. by rewrite Hlen.
Qed.

End SelectedPropertiesReturn.

(** The default [{}] has no property under an own name or a column
    index. *)
Lemma emptyObject_selects {W : Type} (hs : list (option string)) (key : string)
    (f : @callback W) :
  Forall Pure.ownName (omap id hs) ->
  Pure.selects hs key -> emptyObject !! key = Some f -> False.
Proof.
  intros Hown [Hin|(k & _ & ->)] Hf.
  - rewrite emptyObject_own in Hf; [done|].
    rewrite Forall_forall in Hown. apply Hown.
    apply list_elem_of_omap. by exists (Some key).
  - by rewrite emptyObject_index in Hf.
Qed.

(** X7: when the tokenizer resolves to a grid whose rows all have the
    length of row 0, and every property of the callbacks object that a
    header name or a column index selects never throws, [parseCSV]
    resolves, to one record per data row: every row but the first with
    [header: true], every row with a header list. *)
Theorem parseCSV_resolves {W : Type} (callbacks : gmap string (@callback W))
    (csv : string) (options : CsvParserOptions) (w : W) (cells : grid) :
  tokenize (separator options) (stringDelimiter options) csv = Resolved cells ->
  malformed cells = false ->
  (forall hs key f,
      resolveHeaders (header options) cells = Some hs ->
      Pure.selects hs key -> callbacks !! key = Some f -> Pure.neverThrows f) ->
  exists recs w',
    parseCSV callbacks csv options w = (Resolved recs, w') /\
    length recs = Pure.dataRowCount (header options) cells.
Proof.
  intros Htok Hmal Hcb. unfold parseCSV, Pure.dataRowCount.
  rewrite Htok, Hmal.
  pose proof (tokenize_shape _ _ _ _ Htok) as Hwf.
  destruct (header options) as [|names]; simpl in *.
  - destruct cells as [|hdr rows]; [by exists [], w|]. simpl in *.
    inversion Hwf as [|? ? (l & -> & _) _]; subst.
    apply (projectRows_returns callbacks).
    + apply Forall_fmap, Forall_forall. intros s _. by eexists.
    + intros key f. by apply Hcb.
  - apply (projectRows_returns callbacks).
    + apply Forall_fmap, Forall_forall. intros s _. by eexists.
    + intros key f. by apply Hcb.
Qed.

Lemma parseCSV_resolves_witness :
  exists recs w',
    parseCSV (W := unit) emptyObject Samples.quotedText defaultOptions tt
    = (Resolved recs, w') /\
    length recs = 2%nat.
Proof.
  apply (parseCSV_resolves (W := unit) emptyObject Samples.quotedText
           defaultOptions tt
           [ [Some "name"; Some "note"]; [Some "Alan"; Some "a, b"];
             [Some "Bo"; Some Samples.escapedQuoteCell] ]).
  - vm_compute. reflexivity.
  - vm_compute. reflexivity.
  - intros hs key f [= <-] Hsel Hf. exfalso.
    apply (emptyObject_selects [Some "name"; Some "note"] key f);
      [apply ownNames_intro; vm_compute; reflexivity | exact Hsel | exact Hf].
Defined.

(** ** More on the lines of a text *)

Lemma splitFrom_line_crlf (l : string) :
  forall cur rest,
    Pure.hasChar LF l = false -> Pure.hasChar CR l = false ->
    splitFrom cur (l +:+ String CR (String LF rest))
    = (cur +:+ l) :: splitFrom "" rest.
Proof.
  induction l as [|c l IH]; intros cur rest Hlf Hcr.
  - rewrite str_app_nil_l, str_app_nil_r. reflexivity.
  - simpl in Hlf, Hcr.
    apply orb_false_iff in Hlf as [Hlf Hlf'].
    apply orb_false_iff in Hcr as [Hcr Hcr'].
    rewrite str_app_cons. simpl. rewrite Hlf, Hcr, IH by done.
    by rewrite str_app_assoc.
Qed.

Lemma splitLines_join_crlf (ls : list string) :
  ls <> [] ->
  Forall (fun l => Pure.hasChar LF l = false /\ Pure.hasChar CR l = false) ls ->
  splitLines (join Pure.CRLF ls) = ls.
Proof.
  unfold splitLines, join. induction ls as [|l ls IH]; intros Hne Hall; [done|].
  inversion Hall as [|? ? [Hlf Hcr] Hrest]; subst.
  destruct ls as [|l2 ls].
  - simpl. by rewrite splitFrom_noBreak.
  - rewrite concat_cons2. unfold Pure.CRLF at 1.
    rewrite !str_app_cons, str_app_nil_l, splitFrom_line_crlf by done.
    rewrite IH by done. done.
Qed.

(** X8: lines without line-break characters of their own give the same
    outcome whether they are joined by CR LF or by LF. *)
Theorem parseCSV_crlf {W : Type} (callbacks : gmap string (@callback W))
    (ls : list string) (options : CsvParserOptions) (w : W) :
  Forall (fun l => Pure.hasChar LF l = false /\ Pure.hasChar CR l = false) ls ->
  splitLines (join Pure.CRLF ls) = splitLines (join (String LF "") ls) /\
  parseCSV callbacks (join Pure.CRLF ls) options w
  = parseCSV callbacks (join (String LF "") ls) options w.
Proof.
  intros Hall.
  assert (Hsplit : splitLines (join Pure.CRLF ls)
                   = splitLines (join (String LF "") ls)).
  { destruct ls as [|l ls]; [done|].
    by rewrite splitLines_join_crlf, splitLines_join. }
  split; [done|]. unfold parseCSV, tokenize. by rewrite Hsplit.
Qed.

Lemma parseCSV_crlf_witness :
  splitLines (join Pure.CRLF ["a,b"; "1,2"])
  = splitLines (join (String LF "") ["a,b"; "1,2"]) /\
  parseCSV (W := unit) emptyObject (join Pure.CRLF ["a,b"; "1,2"]) defaultOptions tt
  = parseCSV (W := unit) emptyObject (join (String LF "") ["a,b"; "1,2"]) defaultOptions tt.
Proof.
  apply (parseCSV_crlf (W := unit) emptyObject ["a,b"; "1,2"] defaultOptions tt).
  repeat constructor.
Defined.

Lemma splitFrom_not_nil (s : string) : forall cur, splitFrom cur s <> [].
Proof.
  assert (H : forall n s cur, (String.length s <= n)%nat -> splitFrom cur s <> []).
  { clear s. induction n as [|n IH]; intros s cur Hlen.
    - destruct s; simpl in Hlen; [done|lia].
    - destruct s as [|c rest]; [done|]. simpl in Hlen. simpl.
      destruct (Ascii.eqb c LF); [done|].
      destruct (Ascii.eqb c CR); [|apply IH; lia].
      destruct rest as [|c2 rest2]; [apply IH; simpl; lia|].
      destruct (Ascii.eqb c2 LF); [done|]. apply IH. lia. }
  intros cur. by apply (H (String.length s)).
Qed.

Lemma splitFrom_join (s : string) :
  forall cur,
    Pure.hasChar CR s = false ->
    join (String LF "") (splitFrom cur s) = cur +:+ s.
Proof.
  unfold join. induction s as [|c rest IH]; intros cur Hcr.
  - simpl. by rewrite str_app_nil_r.
  - simpl in Hcr. apply orb_false_iff in Hcr as [Hc Hrest]. simpl.
    rewrite Hc. destruct (Ascii.eqb_spec c LF) as [->|Hlf].
    + pose proof (splitFrom_not_nil rest "") as Hne.
      specialize (IH "" Hrest).
      destruct (splitFrom "" rest) as [|x xs]; [done|].
      rewrite concat_cons2, IH. by rewrite str_app_nil_l.
    + rewrite IH by done. by rewrite str_app_assoc.
Qed.

(** X9: splitting loses nothing but the line breaks: for a text without
    carriage return, the lines joined by newlines are the text. *)
Theorem splitLines_join_back (csv : string) :
  Pure.hasChar CR csv = false ->
  join (String LF "") (splitLines csv) = csv.
Proof. intros Hcr. unfold splitLines. by rewrite splitFrom_join. Qed.

Lemma splitLines_join_back_witness :
  join (String LF "") (splitLines Samples.gapText) = Samples.gapText.
Proof. apply splitLines_join_back. reflexivity. Defined.

(** ** More on the scanner *)

Lemma concat_snoc (sep x : string) (l : list string) :
  l <> [] -> String.concat sep (l ++ [x]) = String.concat sep l +:+ sep +:+ x.
Proof.
  induction l as [|y l IH]; intros Hne; [done|].
  destruct l as [|z l].
  - reflexivity.
  - change ((y :: z :: l) ++ [x]) with (y :: (z :: l) ++ [x]).
    change ((z :: l) ++ [x]) with (z :: (l ++ [x])) at 1.
    rewrite concat_cons2.
    change (z :: (l ++ [x])) with ((z :: l) ++ [x]).
    rewrite IH by done. rewrite concat_cons2.
    by rewrite !str_app_assoc.
Qed.

Lemma concat_snoc_app (sep x y : string) (l : list string) :
  String.concat sep (l ++ [x +:+ y]) = String.concat sep (l ++ [x]) +:+ y.
Proof.
  destruct l as [|z l]; [done|].
  rewrite !concat_snoc by done. by rewrite !str_app_assoc.
Qed.

(** Outside quotes and without a delimiter to come, the cells joined by
    the separator spell what was read. *)
Lemma lexRow_unquoted (sep : string) (d : ascii) (line : string) :
  forall (closed : list string) (cur : string),
    Pure.hasChar d line = false ->
    String.concat sep (Pure.lexRow sep d line closed cur false)
    = String.concat sep (closed ++ [cur]) +:+ line.
Proof.
  induction line as [|c rest IH]; intros closed cur Hd.
  - simpl. by rewrite str_app_nil_r.
  - simpl in Hd. apply orb_false_iff in Hd as [Hc Hrest].
    rewrite lexRow_step, Hc.
    destruct (String.eqb_spec (String c "") sep) as [<-|Hne].
    + rewrite IH by done. rewrite concat_snoc by (by destruct closed).
      by rewrite !str_app_assoc.
    + rewrite IH by done. rewrite concat_snoc_app.
      by rewrite str_app_assoc.
Qed.

(** Outside quotes and without a delimiter to come, no cell holds the
    separator character. *)
Lemma lexRow_no_separator (sc d : ascii) (line : string) :
  forall (closed : list string) (cur : string),
    Pure.hasChar d line = false ->
    Forall (fun c => Pure.hasChar sc c = false) closed ->
    Pure.hasChar sc cur = false ->
    Forall (fun c => Pure.hasChar sc c = false)
           (Pure.lexRow (String sc "") d line closed cur false).
Proof.
  induction line as [|c rest IH]; intros closed cur Hd Hclosed Hcur.
  - simpl. apply Forall_app. split; [done|]. by constructor.
  - simpl in Hd. apply orb_false_iff in Hd as [Hc Hrest].
    rewrite lexRow_step, Hc.
    destruct (String.eqb_spec (String c "") (String sc "")) as [Heq|Hne].
    + apply IH; [done| |done]. apply Forall_app. split; [done|]. by constructor.
    + apply IH; [done|done|]. rewrite hasChar_app, Hcur. simpl.
      rewrite orb_false_r. apply Ascii.eqb_neq. congruence.
Qed.

(** A separator that is not one character is never met: without a
    delimiter to come, the line is read into the current cell. *)
Lemma lexRow_uncut (sep : string) (d : ascii) (line : string) :
  String.length sep <> 1%nat ->
  forall (closed : list string) (cur : string) (inString : bool),
    Pure.hasChar d line = false ->
    Pure.lexRow sep d line closed cur inString = closed ++ [cur +:+ line].
Proof.
  intros Hsep. induction line as [|c rest IH]; intros closed cur b Hd.
  - simpl. by rewrite str_app_nil_r.
  - simpl in Hd. apply orb_false_iff in Hd as [Hc Hrest].
    rewrite lexRow_step, Hc.
    destruct (String.eqb_spec (String c "") sep) as [<-|Hne]; [done|].
    rewrite IH by done. by rewrite str_app_assoc.
Qed.

(** X10: a one-line text without the delimiter character is cut at every
    occurrence of a one-character separator and nowhere else: the
    tokenizer resolves to one row, no cell of which holds the separator,
    and the cells joined by the separator are the line.  With a separator
    that is not one character the line is not cut at all. *)
Theorem tokenize_unquoted_line (sc : ascii) (sep : string)
    (d : StringDelimiter) (line : string) :
  line <> "" ->
  Pure.hasChar LF line = false -> Pure.hasChar CR line = false ->
  Pure.hasChar (delimiterChar d) line = false ->
  (exists cells : list string,
     tokenize (String sc "") d line = Resolved [Some <$> cells] /\
     join (String sc "") cells = line /\
     Forall (fun c => Pure.hasChar sc c = false) cells)
  /\ (String.length sep <> 1%nat ->
      tokenize sep d line = Resolved [[Some line]]).
Proof.
  intros Hne Hlf Hcr Hd.
  assert (Htok : forall sep', tokenize sep' d line
                 = Resolved [Some <$> Pure.lexRow sep' (delimiterChar d) line [] "" false]).
  { intros sep'. unfold tokenize, splitLines. rewrite splitFrom_noBreak by done.
    rewrite str_app_nil_l.
    by rewrite (tokenizeLines_trailing_empty _ _ [line] [])
      by (by repeat constructor). }
  split.
  - exists (Pure.lexRow (String sc "") (delimiterChar d) line [] "" false).
    split; [done|]. split.
    + unfold join. by rewrite lexRow_unquoted.
    + by apply lexRow_no_separator.
  - intros Hsep. rewrite Htok. by rewrite lexRow_uncut.
Qed.

Lemma tokenize_unquoted_line_witness :
  (exists cells : list string,
     tokenize ";" DoubleQuote "1;Alan;;Greer::x" = Resolved [Some <$> cells] /\
     join ";" cells = "1;Alan;;Greer::x" /\
     Forall (fun c => Pure.hasChar ";" c = false) cells)
  /\ (String.length "::" <> 1%nat ->
      tokenize "::" DoubleQuote "1;Alan;;Greer::x"
      = Resolved [[Some "1;Alan;;Greer::x"]]).
Proof.
  apply (tokenize_unquoted_line ";" "::" DoubleQuote "1;Alan;;Greer::x");
    [discriminate | reflexivity | reflexivity | reflexivity].
Defined.

(** Inside quotes and without a delimiter to come, everything is read
    into the current cell, separators too. *)
Lemma lexRow_open_quote (sep : string) (d : ascii) (line : string) :
  forall (closed : list string) (cur : string),
    Pure.hasChar d line = false ->
    Pure.lexRow sep d line closed cur true = closed ++ [cur +:+ line].
Proof.
  induction line as [|c rest IH]; intros closed cur Hd.
  - simpl. by rewrite str_app_nil_r.
  - simpl in Hd. apply orb_false_iff in Hd as [Hc Hrest].
    rewrite lexRow_step, Hc.
    destruct (String.eqb (String c "") sep);
      rewrite IH by done; by rewrite str_app_assoc.
Qed.

(** X11: a quote that is opened and never closed is no error: for a
    one-line text that starts with the delimiter and has no other one (the
    separator being another character), the tokenizer resolves to the
    single cell made of the rest of the line, separators included. *)
Theorem tokenize_unterminated_quote (sep : string) (d : StringDelimiter)
    (rest : string) :
  String (delimiterChar d) "" <> sep ->
  Pure.hasChar LF rest = false -> Pure.hasChar CR rest = false ->
  Pure.hasChar (delimiterChar d) rest = false ->
  tokenize sep d (String (delimiterChar d) rest) = Resolved [[Some rest]].
Proof.
  intros Hsep Hlf Hcr Hd.
  unfold tokenize, splitLines. rewrite splitFrom_noBreak.
  - rewrite str_app_nil_l.
    rewrite (tokenizeLines_trailing_empty _ _ [String (delimiterChar d) rest] [])
      by (by repeat constructor).
    rewrite list_fmap_singleton, lexRow_step.
    apply String.eqb_neq in Hsep. rewrite Hsep, Ascii.eqb_refl.
    assert (Hopen : Pure.lexRow sep (delimiterChar d) rest [] "" (negb false)
                    = [rest]).
    { simpl negb. by rewrite lexRow_open_quote. }
    destruct rest as [|c rest']; simpl andb; cbv iota; by rewrite Hopen.
  - simpl. rewrite Hlf. by destruct d.
  - simpl. rewrite Hcr. by destruct d.
Qed.

Lemma tokenize_unterminated_quote_witness :
  tokenize "," DoubleQuote (String dquote "a,b") = Resolved [[Some "a,b"]].
Proof.
  apply (tokenize_unterminated_quote "," DoubleQuote "a,b");
    [discriminate | reflexivity | reflexivity | reflexivity].
Defined.

(** ** More on the projection *)

Section ProjectionLookup.
Context {W : Type} (callbacks : gmap string (@callback W)).

(** The entry of a column is what [projectCell] resolved to, in the state
    the earlier columns left. *)
Lemma projectCells_lookup (line : list (option string)) (rowIdx : nat)
    (hs : list (option string)) :
  forall colIdx w es w',
    projectCells callbacks hs colIdx line rowIdx w = (Resolved es, w') ->
    forall k name,
      hs !! k = Some (Some name) ->
      exists v wk wk',
        projectCell callbacks line rowIdx name (colIdx + k) wk = (Resolved v, wk')
        /\ es !! k = Some (Some (name, v)).
Proof.
  induction hs as [|h hs IH]; intros colIdx w es w' Hp k name Hk; [done|].
  destruct k as [|k]; simpl in Hk.
  - injection Hk as ->. rewrite Nat.add_0_r. simpl in Hp.
    destruct (projectCell callbacks line rowIdx name colIdx w)
      as [[v|e] w1] eqn:Hcell; [|done].
    destruct (projectCells callbacks hs (S colIdx) line rowIdx w1)
      as [[es1|e] w2]; [|done].
    injection Hp as <- <-. by exists v, w, w1.
  - replace (colIdx + S k)%nat with (S colIdx + k)%nat by lia.
    simpl in Hp. destruct h as [name0|].
    + destruct (projectCell callbacks line rowIdx name0 colIdx w) as [[v0|e] w1];
        [|done].
      destruct (projectCells callbacks hs (S colIdx) line rowIdx w1)
        as [[es1|e] w2] eqn:E; [|done].
      injection Hp as <- <-.
      destruct (IH _ _ _ _ E k name Hk) as (v & wk & wk' & Hcell & Hes).
      by exists v, wk, wk'.
    + destruct (projectCells callbacks hs (S colIdx) line rowIdx w)
        as [[es1|e] w2] eqn:E; [|done].
      injection Hp as <- <-.
      destruct (IH _ _ _ _ E k name Hk) as (v & wk & wk' & Hcell & Hes).
      by exists v, wk, wk'.
Qed.

(** Record [i] is the projection of data row [i], with row index [i]. *)
Lemma projectRows_lookup (headers : option (list (option string)))
    (rows : grid) :
  forall rowIdx w recs w',
    projectRows callbacks headers rows rowIdx w = (Resolved recs, w') ->
    forall i line,
      rows !! i = Some line ->
      exists o wi wi',
        projectRow callbacks headers line (rowIdx + i) wi = (Resolved o, wi')
        /\ recs !! i = Some o.
Proof.
  induction rows as [|r rows IH]; intros rowIdx w recs w' Hp i line Hi; [done|].
  rewrite projectRows_step in Hp.
  destruct (projectRow callbacks headers r rowIdx w) as [[o|e] w1] eqn:Hrow;
    [|done].
  destruct (projectRows callbacks headers rows (S rowIdx) w1)
    as [[os|e] w2] eqn:Hrest; [|done].
  injection Hp as <- <-. destruct i as [|i]; simpl in Hi.
  - injection Hi as ->. rewrite Nat.add_0_r. by exists o, w, w1.
  - replace (rowIdx + S i)%nat with (S rowIdx + i)%nat by lia.
    destruct (IH _ _ _ _ Hrest i line Hi) as (o' & wi & wi' & Hrow' & Hrec).
    by exists o', wi, wi'.
Qed.

(** In a record, the value under a name that heads one column only is
    what [projectCell] resolved to for that column. *)
Lemma projectRow_lookup (hs : list (option string)) (line : list (option string))
    (rowIdx : nat) (w w' : W) (o : jsobj) (k : nat) (name : string) :
  projectRow callbacks (Some hs) line rowIdx w = (Resolved o, w') ->
  hs !! k = Some (Some name) ->
  (forall j, j <> k -> hs !! j <> Some (Some name)) ->
  exists v wk wk',
    projectCell callbacks line rowIdx name k wk = (Resolved v, wk')
    /\ objGet name o = v.
Proof.
  intros Hrow Hk Huniq. unfold projectRow in Hrow.
  destruct (projectCells callbacks hs 0 line rowIdx w) as [[es|e] w1] eqn:E;
    [|done].
  injection Hrow as Hfold <-.
  destruct (projectCells_lookup _ _ _ _ _ _ _ E k name Hk)
    as (v & wk & wk' & Hcell & Hes).
  exists v, wk, wk'. split; [done|].
  apply (fold_addEntry_at name v es k [] o Hfold Hes).
  intros j n v' Hne Hj ->.
  by apply (Huniq j Hne), (projectCells_names callbacks _ _ _ _ _ _ _ E j name v').
Qed.

End ProjectionLookup.

(** X12: in a resolved parse, record [i] holds, under a header name that
    heads column [k] only, the value resolved for that column of data row
    [i]: what the name-keyed callback returned when called with the cell
    [line[k]] and the metadata of column index [k + 1] and row index
    [i + 1]; without a name-keyed one, what the index-keyed callback
    returned on the same arguments; without either, the cell itself, the
    caller's state being left as it was. *)
Theorem parseCSV_record_values {W : Type} (callbacks : gmap string (@callback W))
    (csv : string) (options : CsvParserOptions) (w w' : W)
    (cells : grid) (recs : list jsobj) (hs line : list (option string))
    (i k : nat) (name : string) :
  tokenize (separator options) (stringDelimiter options) csv = Resolved cells ->
  parseCSV callbacks csv options w = (Resolved recs, w') ->
  resolveHeaders (header options) cells = Some hs ->
  dataRows (header options) cells !! i = Some line ->
  hs !! k = Some (Some name) ->
  (forall j, j <> k -> hs !! j <> Some (Some name)) ->
  exists o v wk wk',
    recs !! i = Some o /\
    objGet name o = v /\
    (forall f, callbacks !! name = Some f ->
       f (cellValue line k)
         (CellRef.csvCellMetadataFactory (k + 1) name (i + 1)) wk
       = (Resolved v, wk')) /\
    (forall g, callbacks !! name = None ->
       callbacks !! (pretty k : string) = Some g ->
       g (cellValue line k)
         (CellRef.csvCellMetadataFactory (k + 1) name (i + 1)) wk
       = (Resolved v, wk')) /\
    (callbacks !! name = None -> callbacks !! (pretty k : string) = None ->
       v = cellValue line k /\ wk' = wk).
Proof.
  intros Htok Hparse Hhs Hline Hk Huniq.
  unfold parseCSV in Hparse. rewrite Htok in Hparse.
  destruct (malformed cells); [done|]. rewrite Hhs in Hparse.
  destruct (projectRows_lookup callbacks _ _ _ _ _ _ Hparse i line Hline)
    as (o & wi & wi' & Hrow & Hrec).
  destruct (projectRow_lookup callbacks _ _ _ _ _ _ k name Hrow Hk Huniq)
    as (v & wk & wk' & Hcell & Hget).
  exists o, v, wk, wk'. split; [done|]. split; [done|].
  unfold projectCell, callback in *. simpl Nat.add in Hcell.
  split; [|split].
  - intros f Hf. by rewrite Hf in Hcell.
  - intros g Hn Hg. by rewrite Hn, Hg in Hcell.
  - intros Hn Hi. rewrite Hn, Hi in Hcell. by injection Hcell as <- <-.
Qed.

Lemma parseCSV_record_values_witness :
  let callbacks : gmap string callback :=
    <["note" := Samples.positionCallback "N"]>
      (<["0" := Samples.positionCallback "I"]> ∅) in
  let line := [Some "Bo"; Some Samples.escapedQuoteCell] in
  exists o v wk wk',
    [ [("name", JOther "IR1C1"); ("note", JOther "NR1C2")];
      [("name", JOther "IR2C1"); ("note", JOther "NR2C2")] ] !! 1%nat = Some o /\
    objGet "name" o = v /\
    (forall f, callbacks !! "name" = Some f ->
       f (cellValue line 0) (CellRef.csvCellMetadataFactory (0 + 1) "name" (1 + 1)) wk
       = (Resolved v, wk')) /\
    (forall g, callbacks !! "name" = None ->
       callbacks !! (pretty 0%nat : string) = Some g ->
       g (cellValue line 0) (CellRef.csvCellMetadataFactory (0 + 1) "name" (1 + 1)) wk
       = (Resolved v, wk')) /\
    (callbacks !! "name" = None -> callbacks !! (pretty 0%nat : string) = None ->
       v = cellValue line 0 /\ wk' = wk).
Proof.
  intros callbacks line.
  apply (parseCSV_record_values callbacks Samples.quotedText defaultOptions
           []
           ["I:Alan@R1C1"; "N:a, b@R1C2"; "I:Bo@R2C1";
            "N:" +:+ Samples.escapedQuoteCell +:+ "@R2C2"]
           [ [Some "name"; Some "note"]; [Some "Alan"; Some "a, b"];
             [Some "Bo"; Some Samples.escapedQuoteCell] ]
           _ [Some "name"; Some "note"]).
  - vm_compute. reflexivity.
  - vm_compute. reflexivity.
  - reflexivity.
  - reflexivity.
  - reflexivity.
  - intros [|[|[|j]]] Hne; simpl; congruence.
Defined.

(** X13: in a resolved parse, under a header name that heads one column
    only and under which, as under the column index, [in] finds no
    property of the callbacks object (own or inherited), record [i] holds
    the cell of data row [i] at that column as it was read, and
    [undefined] when the row has no cell there (a header list longer than
    the row). *)
Theorem parseCSV_raw_cells {W : Type} (callbacks : gmap string (@callback W))
    (csv : string) (options : CsvParserOptions) (w w' : W)
    (cells : grid) (recs : list jsobj) (hs line : list (option string))
    (i k : nat) (name : string) :
  tokenize (separator options) (stringDelimiter options) csv = Resolved cells ->
  parseCSV callbacks csv options w = (Resolved recs, w') ->
  resolveHeaders (header options) cells = Some hs ->
  dataRows (header options) cells !! i = Some line ->
  hs !! k = Some (Some name) ->
  (forall j, j <> k -> hs !! j <> Some (Some name)) ->
  callbacks !! name = None ->
  callbacks !! (pretty k : string) = None ->
  exists o,
    recs !! i = Some o /\
    objGet name o = cellValue line k /\
    (forall s, line !! k = Some (Some s) -> objGet name o = JString s) /\
    ((length line <= k)%nat -> objGet name o = JUndefined).
Proof.
  intros Htok Hparse Hhs Hline Hk Huniq Hn Hi.
  unfold parseCSV in Hparse. rewrite Htok in Hparse.
  destruct (malformed cells); [done|]. rewrite Hhs in Hparse.
  destruct (projectRows_lookup callbacks _ _ _ _ _ _ Hparse i line Hline)
    as (o & wi & wi' & Hrow & Hrec).
  destruct (projectRow_lookup callbacks _ _ _ _ _ _ k name Hrow Hk Huniq)
    as (v & wk & wk' & Hcell & Hget).
  unfold projectCell, callback in *. rewrite Hn, Hi in Hcell.
  injection Hcell as <- _.
  exists o. split; [done|]. split; [done|]. split.
  - intros s Hs. rewrite Hget. unfold cellValue, arrGet. by rewrite Hs.
  - intros Hlen. rewrite Hget. unfold cellValue, arrGet.
    by rewrite (lookup_ge_None_2 _ _ Hlen).
Qed.

Lemma parseCSV_raw_cells_witness :
  exists o,
    [ [("id", JString "1"); ("name", JString "Alan"); ("email", JUndefined)];
      [("id", JString "2"); ("name", JString "Julian"); ("email", JUndefined)] ]
      !! 1%nat = Some o /\
    objGet "email" o = cellValue [Some "2"; Some "Julian"] 2 /\
    (forall s, [Some "2"; Some "Julian"] !! 2%nat = Some (Some s) ->
               objGet "email" o = JString s) /\
    ((length [Some "2"; Some "Julian"] <= 2)%nat -> objGet "email" o = JUndefined).
Proof.
  apply (parseCSV_raw_cells (W := unit) emptyObject Samples.headerListText
           {| separator := ","; header := HeaderList ["id"; "name"; "email"];
              stringDelimiter := DoubleQuote |} tt tt
           [ [Some "1"; Some "Alan"]; [Some "2"; Some "Julian"] ]
           _ [Some "id"; Some "name"; Some "email"]).
  - vm_compute. reflexivity.
  - vm_compute. reflexivity.
  - reflexivity.
  - reflexivity.
  - reflexivity.
  - intros [|[|[|j]]] Hne; try done; discriminate.
  - vm_compute. reflexivity.
  - vm_compute. reflexivity.
Defined.


(** X14: an exception thrown by the callback of the first column on the
    first data row rejects the whole parse with that exception: no record
    is returned, and the caller's state is the one the callback left. *)
Theorem parseCSV_callback_throws {W : Type} (callbacks : gmap string (@callback W))
    (csv : string) (options : CsvParserOptions) (w w' : W) (cells rest : grid)
    (hs line : list (option string)) (name : string) (f : callback) (e : error) :
  tokenize (separator options) (stringDelimiter options) csv = Resolved cells ->
  malformed cells = false ->
  resolveHeaders (header options) cells = Some (Some name :: hs) ->
  dataRows (header options) cells = line :: rest ->
  callbacks !! name = Some f ->
  f (cellValue line 0) (CellRef.csvCellMetadataFactory 1 name 1) w = (Rejected e, w') ->
  parseCSV callbacks csv options w = (Rejected e, w').
Proof.
  intros Htok Hmal Hhs Hrows Hf Hthrow.
  unfold parseCSV. rewrite Htok, Hmal, Hhs, Hrows, projectRows_step.
  unfold projectRow. simpl projectCells.
  unfold projectCell, callback in *. rewrite Hf. simpl Nat.add.
  by rewrite Hthrow.
Qed.

Lemma parseCSV_callback_throws_witness :
  parseCSV (<["name" := Samples.throwingCallback "bad name"]> ∅)
    Samples.quotedText defaultOptions []
  = (Rejected (Thrown "bad name"), ["bad name"]).
Proof.
  apply (parseCSV_callback_throws _ Samples.quotedText defaultOptions [] ["bad name"]
           [ [Some "name"; Some "note"]; [Some "Alan"; Some "a, b"];
             [Some "Bo"; Some Samples.escapedQuoteCell] ]
           [ [Some "Bo"; Some Samples.escapedQuoteCell] ]
           [Some "note"] [Some "Alan"; Some "a, b"] "name"
           (Samples.throwingCallback "bad name"));
    reflexivity.
Defined.

(** X15: with [header: true], a text of one non-empty line resolves to no
    record at all: the line is taken as the header, and no callback runs. *)
Theorem parseCSV_header_only {W : Type} (callbacks : gmap string (@callback W))
    (sep : string) (d : StringDelimiter) (line : string) (w : W) :
  line <> "" ->
  Pure.hasChar LF line = false -> Pure.hasChar CR line = false ->
  parseCSV callbacks line
    {| separator := sep; header := HeaderFirstRow; stringDelimiter := d |} w
  = (Resolved [], w).
Proof.
  intros Hne Hlf Hcr. unfold parseCSV, tokenize, splitLines. simpl separator.
  simpl stringDelimiter. simpl header.
  rewrite splitFrom_noBreak by done. rewrite str_app_nil_l.
  rewrite (tokenizeLines_trailing_empty _ _ [line] []) by (by repeat constructor).
  rewrite list_fmap_singleton. unfold malformed. simpl.
  by rewrite Nat.eqb_refl.
Qed.

Lemma parseCSV_header_only_witness :
  parseCSV (<["a" := Samples.throwingCallback "never"]> ∅) "a,b"
    {| separator := ","; header := HeaderFirstRow; stringDelimiter := DoubleQuote |}
    []
  = (Resolved [], []).
Proof.
  apply (parseCSV_header_only _ "," DoubleQuote "a,b" []);
    [discriminate | reflexivity | reflexivity].
Defined.

(** ** More on the serializer *)

(** X16: what [toCsv] writes for a grid of cells is tokenized back into
    that grid, with the double quote as delimiter and a one-character
    separator other than the double quote and the line breaks: for rows
    that have a cell, are not a single empty cell and hold no line-break
    character. *)
Theorem tokenize_written_grid (sc : ascii) (rows : list (list string)) :
  sc <> dquote -> sc <> LF -> sc <> CR ->
  rows <> [] ->
  Forall (fun r : list string =>
            r <> [] /\ r <> [""] /\
            Forall (fun s => Pure.hasChar LF s = false /\
                             Pure.hasChar CR s = false) r) rows ->
  tokenize (String sc "") DoubleQuote (render (String sc "") dquote rows)
  = Resolved (fmap (M := list) Some <$> rows).
Proof. intros Hq Hlf Hcr Hne Hall. by apply tokenize_render. Qed.

Lemma tokenize_written_grid_witness :
  tokenize ";" DoubleQuote
    (render ";" dquote [["a b"; ""]; [Samples.escapedQuoteCell; "x;y"]])
  = Resolved [ [Some "a b"; Some ""];
               [Some Samples.escapedQuoteCell; Some "x;y"] ].
Proof.
  apply (tokenize_written_grid ";"%char
           [["a b"; ""]; [Samples.escapedQuoteCell; "x;y"]]);
    try discriminate.
  repeat constructor; discriminate.
Defined.

(** X17: records of strings that have the same keys in the same order
    (each key once, at least one key), no property name of
    [Object.prototype] as a key, no line-break character in a key or a
    value, not the single empty name as keys and not a single empty
    string as values: [toCsv] resolves to a text that [parseCSV] (same
    one-character separator, [header: true], double quote, the default
    callbacks [{}]) resolves to as many records, which agree with the
    given ones on every key. *)
Theorem toCsv_then_parseCSV {W : Type} (w : W) (sc : ascii)
    (first : jsobj) (rest : list jsobj) :
  sc <> dquote -> sc <> LF -> sc <> CR ->
  NoDup (first.*1) -> first <> [] ->
  Forall Pure.ownName (keys first) ->
  Forall (fun o => keys o = keys first /\ Forall Pure.isString (o.*2) /\
                   Pure.cleanRecord o) (first :: rest) ->
  exists text recs',
    toCsv (DataArray (first :: rest)) (Pure.toCsvOptionsFor sc) = Resolved text /\
    parseCSV (W := W) emptyObject text (Pure.optionsFor sc) w = (Resolved recs', w) /\
    Pure.sameRecords (first :: rest) recs'.
Proof.
  intros Hq Hlf Hcr Hnd Hne Hown Hall.
  assert (HK : keys first <> []).
  { intros Hk. destruct first as [|[k v] o]; [done|].
    assert (Hin : k ∈ keys ((k, v) :: o)).
    { unfold keys, ownKeys. rewrite orderKeys_perm, fmap_cons. by left. }
    rewrite Hk in Hin. by apply elem_of_nil in Hin. }
  exists (render (String sc "") dquote
            (keys first :: (Pure.cellsOfRecord <$> (first :: rest)))),
         (Pure.recordOf (keys first) <$> (Pure.cellsOfRecord <$> (first :: rest))).
  split; [|split].
  - apply toCsv_strings, (Forall_impl _ _ _ Hall). by intros o (_ & ? & _).
  - rewrite parseCSV_emptyObject.
    + apply parseCSV_written; try done.
      unfold keys, ownKeys. by rewrite orderKeys_perm.
    + by rewrite headerNames_written.
  - apply sameRecords_written, (Forall_impl _ _ _ Hall). by intros o (? & ? & _).
Qed.

Lemma toCsv_then_parseCSV_witness :
  exists text recs',
    toCsv (DataArray [ [("b", JString "x y"); ("7", JString "")];
                       [("b", JString "q"); ("7", JString Samples.escapedQuoteCell)] ])
          (Pure.toCsvOptionsFor ";"%char) = Resolved text /\
    parseCSV (W := unit) emptyObject text (Pure.optionsFor ";"%char) tt
    = (Resolved recs', tt) /\
    Pure.sameRecords
      [ [("b", JString "x y"); ("7", JString "")];
        [("b", JString "q"); ("7", JString Samples.escapedQuoteCell)] ] recs'.
Proof.
  apply (toCsv_then_parseCSV tt ";"%char).
  - discriminate.
  - discriminate.
  - discriminate.
  - apply (bool_decide_unpack _). vm_compute. exact I.
  - discriminate.
  - apply ownNames_intro. vm_compute. reflexivity.
  - repeat (apply Forall_cons; split); [| |constructor].
    + split; [reflexivity|]. split; [repeat constructor; by eexists|].
      apply (cleanRecord_intro _ ["7"; "b"] [""; "x y"]);
        [vm_compute; reflexivity | vm_compute; reflexivity
        | discriminate | discriminate
        | repeat constructor | repeat constructor].
    + split; [vm_compute; reflexivity|]. split; [repeat constructor; by eexists|].
      apply (cleanRecord_intro _ ["7"; "b"] [Samples.escapedQuoteCell; "q"]);
        [vm_compute; reflexivity | vm_compute; reflexivity
        | discriminate | discriminate
        | repeat constructor | repeat constructor].
Defined.

Lemma substring_prefix (s : string) :
  forall n, String.prefix (String.substring 0 n s) s = true.
Proof.
  induction s as [|c s IH]; intros [|n]; simpl; try done.
  destruct (ascii_dec c c) as [_|Hne]; [apply IH|done].
Qed.

Lemma index_empty (s : string) : String.index 0 "" s = Some 0%nat.
Proof. destruct s as [|c s]; reflexivity. Qed.

Lemma keys_singleton (key : string) (v : jsval) : keys [(key, v)] = [key].
Proof.
  unfold keys, ownKeys, orderKeys, indexKeys. simpl.
  destruct (arrayIndex key) as [n|] eqn:Hk; simpl.
  - by rewrite filter_cons_False by (by rewrite Hk).
  - by rewrite filter_cons_True by done.
Qed.

Lemma values_singleton (key : string) (v : jsval) : values [(key, v)] = [v].
Proof.
  unfold values. change (ownKeys [(key, v)]) with (keys [(key, v)]).
  rewrite keys_singleton. simpl. by rewrite String.eqb_refl.
Qed.

(** X18: the string [toCsv] takes for an element is a beginning of its
    [outerHTML] (all of it when [innerHTML] is [null], nothing at all when
    [innerHTML] is the empty string), and the cell written for a record
    holding the element is that string put through the quoting rule. *)
Theorem stringifyCell_element (outerHTML : string) (innerHTML : option string)
    (key : string) (options : ToCsvOptions) :
  (exists s,
      stringifyCell (JElement outerHTML innerHTML) = Resolved s /\
      String.prefix s outerHTML = true /\
      toCsv (DataArray [[(key, JElement outerHTML innerHTML)]]) options
      = Resolved
          (join (String LF "")
             [ quoteCell (toSeparator options)
                 (delimiterChar (toStringDelimiter options)) key;
               quoteCell (toSeparator options)
                 (delimiterChar (toStringDelimiter options)) s ]))
  /\ stringifyCell (JElement outerHTML None) = Resolved outerHTML
  /\ stringifyCell (JElement outerHTML (Some "")) = Resolved "".
Proof.
  split; [|split; [done|]].
  - assert (Hs : exists s, stringifyCell (JElement outerHTML innerHTML) = Resolved s /\
                           String.prefix s outerHTML = true).
    { destruct innerHTML as [inner|]; simpl.
      + eexists. split; [done|]. unfold slice0. apply substring_prefix.
      + eexists. split; [done|].
        induction outerHTML as [|c s IH]; [done|]. simpl.
        by destruct (ascii_dec c c). }
    destruct Hs as (s & Hs & Hpre). exists s. split; [done|]. split; [done|].
    unfold toCsv, stringifyRows. rewrite values_singleton, keys_singleton.
    unfold stringifyRow. rewrite Hs. reflexivity.
  - simpl. unfold indexOf, slice0. rewrite index_empty. simpl.
    by destruct outerHTML.
Qed.

(** ** Empty lines before other lines *)

Lemma scanLine_length (sep : string) (d : ascii) (n : nat) :
  forall line i (cells cells' : grid) currentCell inString,
    (String.length line <= n)%nat ->
    scanLine sep d line i cells currentCell inString = Resolved cells' ->
    length cells' = length cells.
Proof.
  induction n as [|n IH]; intros line i cells cells' cc b Hlen Hscan.
  - destruct line; simpl in Hlen; [|lia]. simpl in Hscan. congruence.
  - destruct line as [|c rest]; [simpl in Hscan; congruence|].
    simpl in Hlen. rewrite scanLine_step in Hscan.
    unfold appendChar, incrementCell in Hscan.
    assert (Hrest : forall cells1 cc' b',
              length cells1 = length cells ->
              scanLine sep d rest i cells1 cc' b' = Resolved cells' ->
              length cells' = length cells).
    { intros cells1 cc' b' Hl Hs. rewrite <- Hl.
      refine (IH _ _ _ _ _ _ _ Hs). lia. }
    destruct (cells !! i) as [result|]; unfold obind in Hscan.
    + destruct (String.eqb (String c "") sep).
      * destruct b; apply Hrest in Hscan; try done; apply length_insert.
      * destruct (Ascii.eqb c d);
          [|apply Hrest in Hscan; try done; apply length_insert].
        destruct rest as [|next rest']; [by apply Hrest in Hscan|].
        destruct (b && Ascii.eqb next d); [|by apply Hrest in Hscan].
        apply IH in Hscan; [|simpl in Hlen; lia].
        by rewrite Hscan, length_insert.
    + destruct (String.eqb (String c "") sep).
      * destruct b; congruence.
      * destruct (Ascii.eqb c d); [|congruence].
        destruct rest as [|next rest']; [by apply Hrest in Hscan|].
        destruct (b && Ascii.eqb next d); [congruence|].
        by apply Hrest in Hscan.
Qed.

Lemma tokenizeLines_app (sep : string) (d : ascii) (pre post : list string) :
  forall i cells,
    tokenizeLines sep d (pre ++ post) i cells
    = obind (tokenizeLines sep d pre i cells)
        (fun cells' => tokenizeLines sep d post (i + length pre) cells').
Proof.
  induction pre as [|l pre IH]; intros i cells.
  - simpl. by rewrite Nat.add_0_r.
  - rewrite <- app_comm_cons, !tokenizeLines_step.
    replace (i + length (l :: pre))%nat with (S i + length pre)%nat
      by (simpl; lia).
    destruct (String.eqb l ""); [apply IH|].
    destruct (scanLine sep d l i (cells ++ [[Some ""]]) 0 false); simpl; [|done].
    apply IH.
Qed.

Lemma tokenizeLines_length (sep : string) (d : ascii) (lines : list string) :
  forall i cells cells',
    tokenizeLines sep d lines i cells = Resolved cells' ->
    (length cells' <= length cells + length lines)%nat.
Proof.
  induction lines as [|l lines IH]; intros i cells cells' Htok.
  - simpl in Htok. injection Htok as <-. lia.
  - rewrite tokenizeLines_step in Htok. simpl length.
    destruct (String.eqb l "").
    + apply IH in Htok. lia.
    + destruct (scanLine sep d l i (cells ++ [[Some ""]]) 0 false)
        as [cells1|e] eqn:Hscan; [|done]. simpl in Htok.
      apply IH in Htok.
      apply (scanLine_length _ _ _ _ _ _ _ _ _ (le_n _)) in Hscan.
      rewrite length_app in Hscan. simpl in Hscan. lia.
Qed.

(** X19: a text in which an empty line is followed by a line that starts
    with another character than the delimiter is rejected with a
    [TypeError], whatever else it holds: the row of that line is looked up
    at the index of the line, where there is none. *)
Theorem parseCSV_empty_line_inside {W : Type} (callbacks : gmap string (@callback W))
    (csv : string) (options : CsvParserOptions) (w : W)
    (pre post : list string) (c : ascii) (rest : string) :
  splitLines csv = pre ++ "" :: String c rest :: post ->
  c <> delimiterChar (stringDelimiter options) ->
  parseCSV callbacks csv options w = (Rejected TypeError, w).
Proof.
  intros Hsplit Hc. unfold parseCSV, tokenize. rewrite Hsplit.
  rewrite tokenizeLines_app.
  destruct (tokenizeLines _ _ pre 0 []) as [cells|e] eqn:Hpre; unfold obind.
  - apply tokenizeLines_length in Hpre. simpl in Hpre.
    rewrite Nat.add_0_l, !tokenizeLines_step.
    change (String.eqb "" "") with true.
    change (String.eqb (String c rest) "") with false. cbv iota.
    rewrite scanLine_step. unfold appendChar, incrementCell.
    assert (Hnone : (cells ++ [[Some ""]]) !! S (length pre) = None).
    { apply lookup_ge_None. rewrite length_app. simpl. lia. }
    rewrite Hnone. apply Ascii.eqb_neq in Hc. rewrite Hc.
    by destruct (String.eqb (String c "") (separator options)).
  - by rewrite (tokenizeLines_error _ _ _ _ _ _ Hpre).
Qed.

Lemma parseCSV_empty_line_inside_witness :
  parseCSV (W := unit) emptyObject Samples.gapText defaultOptions tt
  = (Rejected TypeError, tt).
Proof.
  apply (parseCSV_empty_line_inside emptyObject Samples.gapText defaultOptions tt
           ["a"] [] "b"%char "").
  - reflexivity.
  - discriminate.
Defined.
